(** * invoice-agent: the chat-to-tool-call loop of [main.py]

    A shallow embedding of [src/main.py]: the three action handlers
    ([create_customer], [create_invoice], [list_invoices]), the agent turn
    ([run_quotation_agent], [process_chat_message]), the connection manager,
    the WebSocket endpoint and the two HTTP routes; and of the two payloads
    that [src/frontend.py] sends.

    - Python text is a [string], its UTF-8 bytes.  The methods of [str] that go by the
      tables of Unicode ([lower], [upper], [strip]) are functions of the
      record [Library], as are [json.loads], [float] on text and the wording
      of the exceptions: the theorems hold for every library.
    - Floats are binary64 numbers by their exact value; [int / 100] and the
      [.2f] format round as Python does (to nearest, ties to even).
    - The remote collaborators (the payments provider, the language model,
      the clock and the uuid source) are the fields of a record [Remote]:
      each call takes the state of the outside world and returns the new one
      together with either a value or the exception it raised.
    - Exceptions are the instances of Python's [Exception]; a computation of
      the program is a function from the state of the process to the new
      state and either a value or the exception raised.
    - A connection is the list of the text frames its client sends and the
      message that ends the loop, a disconnect or a binary frame; sending on
      a connection does not fail.  [websocket_endpoint] is the endpoint as
      it is written, serving its connection from end to end; [run] is the
      server under the event loop, where the turns of all the connections
      and the requests are served in the order in which they come. *)

From Stdlib Require Import ZArith String Ascii List Bool Lia DecimalString.
From stdpp Require Import base option list gmap strings.

Local Open Scope string_scope.
Local Open Scope Z_scope.

(** ** Text *)

Module Text.

(** [s.split(sep)[0]] for a one-character separator: the text before the
    first occurrence of [sep], the whole text when there is none. *)
Fixpoint split_head (sep : ascii) (s : string) : string :=
  match s with
  | EmptyString => EmptyString
  | String c s' => if Ascii.eqb c sep then EmptyString else String c (split_head sep s')
  end.

(** Decimal text of an integer, as [str(int)] gives it. *)
Definition of_Z (z : Z) : string := NilZero.string_of_int (Z.to_int z).

Definition digit (d : Z) : ascii := ascii_of_N (48 + Z.to_N d).

(** The decimal text of [n] hundredths: [cents 12345 = "123.45"]. *)
Definition cents (n : Z) : string :=
  (if n <? 0 then "-" else EmptyString)
  +:+ of_Z (Z.abs n / 100) +:+ "."
  +:+ String (digit (Z.abs n mod 100 / 10)) (String (digit (Z.abs n mod 10)) EmptyString).

End Text.

(** ** Numbers *)

(** A Python [float]: a finite binary64 number by its exact value
    [m * 2^e], an infinity or a nan. *)
Inductive pyfloat :=
| Finite (m e : Z)
| Infinite (negative : bool)
| Nan.

Module Float.

(** Division of [n] by [d > 0] rounded to the nearest integer, ties to even. *)
Definition round_half_even (n d : Z) : Z :=
  let q := n / d in
  let r := n mod d in
  if 2 * r <? d then q
  else if d <? 2 * r then q + 1
  else if Z.even q then q else q + 1.

(** The pair [(x, y)] with [x / y = a / (d * 2^e)]. *)
Definition scaled (a d e : Z) : Z * Z :=
  if 0 <=? e then (a, d * 2 ^ e) else (a * 2 ^ (- e), d).

(** The exponent of the binary64 number nearest to [a / d], for [a, d > 0]:
    the [e] with [2^52 <= a / (d * 2^e) < 2^53], no less than the exponent
    of the subnormal numbers. *)
Definition exponent (a d : Z) : Z :=
  let e1 := Z.log2 a - Z.log2 d - 52 in
  let '(x, y) := scaled a d e1 in
  Z.max (-1074) (if 2 ^ 52 * y <=? x then e1 else e1 - 1).

(** The binary64 number nearest to [n / d] (ties to even), for [d > 0];
    [None] when it is beyond the largest finite number, where Python raises
    [OverflowError]. *)
Definition of_ratio (n d : Z) : option pyfloat :=
  if n =? 0 then Some (Finite 0 0)
  else
    let a := Z.abs n in
    let e := exponent a d in
    let '(x, y) := scaled a d e in
    let m := round_half_even x y in
    if 2 ^ 1024 <=? m * 2 ^ e then None
    else Some (Finite (Z.sgn n * m) e).

(** [int(x)] on a finite float: truncation toward zero. *)
Definition trunc (m e : Z) : Z :=
  if 0 <=? e then m * 2 ^ e else Z.quot m (2 ^ (- e)).

(** [format(x, ".2f")]: the exact value rounded to hundredths, ties to even. *)
Definition format_2f (x : pyfloat) : string :=
  match x with
  | Finite m e =>
      let '(p, q) := scaled (Z.abs m * 100) 1 (- e) in
      let r := round_half_even p q in
      (if m <? 0 then "-" else EmptyString)
      +:+ Text.of_Z (r / 100) +:+ "."
      +:+ String (Text.digit (r mod 100 / 10)) (String (Text.digit (r mod 10)) EmptyString)
  | Infinite negative => if negative then "-inf" else "inf"
  | Nan => "nan"
  end.

End Float.


(** ** Values *)

(** The values a tool argument or a handler parameter can hold. *)
Inductive pyval :=
| VNone
| VBool (b : bool)
| VInt (z : Z)
| VFloat (x : pyfloat)
| VStr (s : string).

(** What [json.loads] returns. *)
#[local] Set Warnings "-register-all".
Inductive json :=
| JNull
| JBool (b : bool)
| JNumber (literal : string)
| JString (s : string)
| JArray (items : list json)
| JObject (fields : gmap string json).

(** ** Exceptions *)

Inductive exn_class :=
| JSONDecodeError
| ValidationError
| InvalidRequestError
| TypeError
| ValueError
| AttributeError
| OverflowError
| KeyError
| RecursionError
| WebSocketDisconnect
| OtherError (class_name : string).

(** An instance of [Exception]: its class and [str(e)]. *)
Record exn := Exn { exn_class_of : exn_class; str_exn : string }.

Definition is_InvalidRequestError (e : exn) : bool :=
  match exn_class_of e with InvalidRequestError => true | _ => false end.

Definition is_JSONDecodeError (e : exn) : bool :=
  match exn_class_of e with JSONDecodeError => true | _ => false end.

Definition is_WebSocketDisconnect (e : exn) : bool :=
  match exn_class_of e with WebSocketDisconnect => true | _ => false end.

(** The faults the interpreter and pydantic raise by themselves; their
    wording belongs to the library ([Library.describe]). *)
Inductive Fault :=
| UnexpectedKeyword (function : string) (keys : list string)
| MissingArguments (function : string) (params : list string)
| NoAttribute (v : pyval) (attribute : string)
| FloatOfValue (v : pyval)
| FloatOfString (s : string)
| IntOfNan
| IntOfInfinity
| IntTooLargeForFloat
| DivisionTooLargeForFloat
| NotAMapping (v : json)
| InvalidFields (fields : gmap string json)
| InvalidJSON (class : exn_class) (data : string)
| RemoveAbsent
| NoTextInFrame
| Disconnected.

Definition fault_class (f : Fault) : exn_class :=
  match f with
  | UnexpectedKeyword _ _ | MissingArguments _ _ | NotAMapping _ => TypeError
  | NoAttribute _ _ => AttributeError
  | FloatOfValue _ => TypeError
  | FloatOfString _ | IntOfNan | RemoveAbsent => ValueError
  | IntOfInfinity | IntTooLargeForFloat | DivisionTooLargeForFloat => OverflowError
  | InvalidFields _ => ValidationError
  | InvalidJSON class _ => class
  | NoTextInFrame => KeyError
  | Disconnected => WebSocketDisconnect
  end.

Inductive outcome (A : Type) :=
| Returned (a : A)
| Raised (e : exn).
Arguments Returned {A} a.
Arguments Raised {A} e.

(** ** Library functions the program calls *)

Record Library := {
  (** [json.loads]: the value, or the class of the exception it raises:
      [json.JSONDecodeError] on a text that is not JSON, and others, as
      [RecursionError] on a text nested too deep. *)
  json_loads : string -> json + exn_class;
  (** [float(s)] on text: [None] when it raises [ValueError]. *)
  float_of_str : string -> option pyfloat;
  (** [str(x)] on a float. *)
  float_repr : pyfloat -> string;
  (** [str.lower], [str.upper] and [str.strip]: Python maps the case and
      strips the whitespace of the whole of Unicode, by tables that are the
      interpreter's. *)
  str_lower : string -> string;
  str_upper : string -> string;
  str_strip : string -> string;
  (** [str(e)] for a fault of the interpreter or of pydantic. *)
  describe : Fault -> string;
}.

(** ** The payments provider's objects and calls *)

Module Customer.
Record t := { id : string }.
End Customer.

Module Invoice.
Record t := { id : string; total : Z }.
End Invoice.

Module InvoiceItem.
Record t := { id : string }.
End InvoiceItem.

(** The calls of the [stripe] SDK the handlers make, with their keyword
    arguments, indexed by what they return. *)
Inductive StripeCall : Type -> Type :=
| Customer_create (email name description : pyval) : StripeCall Customer.t
| Customer_retrieve (id : pyval) : StripeCall Customer.t
| Invoice_create (customer : pyval) (currency : string) (description : pyval)
    (collection_method : string) (days_until_due : Z) : StripeCall Invoice.t
| InvoiceItem_create (customer : pyval) (invoice : string) (amount : Z)
    (currency : string) (description : pyval) : StripeCall InvoiceItem.t
| Invoice_finalize_invoice (id : string) : StripeCall Invoice.t
| Invoice_list (customer : option pyval) : StripeCall (list Invoice.t).

(** ** The model's response *)

Record FunctionCall := { name : string; args : gmap string pyval }.

(** A part of the content; [function_call] is [None] when the part carries
    no function call (its other data is read through [response.text] only). *)
Record Part := { function_call : option FunctionCall }.

Record Content := { parts : list Part }.

Record Candidate := { content : option Content }.

(** [text] is the [response.text] accessor, which returns the text or raises. *)
Record GenerateContentResponse := {
  candidates : list Candidate;
  text : outcome string;
}.

(** ** The wire schema *)

Module ChatMessage.
Record t := {
  session_id : string;
  message : string;
  user_id : string;
  timestamp : option string;
  message_type : string;
}.
End ChatMessage.

Module ChatResponse.
Record t := {
  session_id : string;
  message : string;
  sender : string;
  timestamp : string;
  message_type : string;
  success : bool;
  error : option string;
}.
End ChatResponse.

(** A connection, by identity. *)
Definition WebSocket := nat.

(** What the program writes on standard output. *)
Inductive Printed :=
| PrintLine (s : string)
| PrintResponse (r : GenerateContentResponse)
| PrintCandidate (c : Candidate)
| PrintParts (ps : list Part)
| PrintPart (p : Part)
| PrintFunctionArgs (a : gmap string pyval)
| PrintProcessedArgs (a : gmap string pyval)
| PrintTraceback (e : exn).

(** ** The outside world and the state of the process *)

Record Remote (Env : Type) := {
  stripe : forall A, StripeCall A -> Env -> Env * outcome A;
  generate_content : string -> Env -> Env * outcome GenerateContentResponse;
  datetime_now_isoformat : Env -> Env * string;
  uuid4 : Env -> Env * string;
}.
Arguments stripe {Env} _ {A} _ _.
Arguments generate_content {Env} _ _ _.
Arguments datetime_now_isoformat {Env} _ _.
Arguments uuid4 {Env} _ _.

Record World (Env : Type) := {
  env : Env;
  conversation_history : list string;
  active_connections : list WebSocket;
  stdout : list Printed;
  sent : list (WebSocket * ChatResponse.t);
}.
Arguments env {Env} _.
Arguments conversation_history {Env} _.
Arguments active_connections {Env} _.
Arguments stdout {Env} _.
Arguments sent {Env} _.

(** ** Computations: state of the process, remote calls and exceptions *)

Definition M (Env A : Type) : Type := World Env -> World Env * outcome A.

Definition ret {Env A} (a : A) : M Env A := fun w => (w, Returned a).

Definition raise {Env A} (e : exn) : M Env A := fun w => (w, Raised e).

Definition bind {Env A B} (c : M Env A) (k : A -> M Env B) : M Env B :=
  fun w =>
    match c w with
    | (w', Returned a) => k a w'
    | (w', Raised e) => (w', Raised e)
    end.

Notation "'let*' x ':=' c 'in' k" := (bind c (fun x => k))
  (at level 10, x pattern, c at level 100, k at level 200).

(** [try: body / except Exception as e: handler e]. *)
Definition try_except {Env A} (body : M Env A) (handler : exn -> M Env A) : M Env A :=
  fun w =>
    match body w with
    | (w', Returned a) => (w', Returned a)
    | (w', Raised e) => handler e w'
    end.

(** [try: body / except C: handler], for the class [C] that [is_C] recognises. *)
Definition try_except_class {Env A} (body : M Env A) (is_C : exn -> bool)
  (handler : exn -> M Env A) : M Env A :=
  try_except body (fun e => if is_C e then handler e else raise e).

Definition lift {Env A} (o : outcome A) : M Env A := fun w => (w, o).

Definition print {Env} (p : Printed) : M Env unit :=
  fun w =>
    ({| env := env w; conversation_history := conversation_history w;
        active_connections := active_connections w;
        stdout := stdout w ++ [p]; sent := sent w |}, Returned tt).

(** The world after a call to the outside: only [env] changes. *)
Definition set_env {Env} (w : World Env) (e : Env) : World Env :=
  {| env := e; conversation_history := conversation_history w;
     active_connections := active_connections w;
     stdout := stdout w; sent := sent w |}.

Definition remote {Env A} (f : Env -> Env * A) : M Env A :=
  fun w => let '(env', a) := f (env w) in (set_env w env', Returned a).

Definition remote_call {Env A} (f : Env -> Env * outcome A) : M Env A :=
  let* o := remote f in lift o.

(** What an HTTP route gives: its value, or the [HTTPException] raised on
    the way, which the framework turns into the error response. *)
Inductive http (A : Type) :=
| Ok (a : A)
| HTTPException (status_code : Z) (detail : string).
Arguments Ok {A} a.
Arguments HTTPException {A} status_code detail.

Section Program.

Context {Env : Type} (L : Library) (R : Remote Env).

Definition fault {A} (f : Fault) : outcome A :=
  Raised (Exn (fault_class f) (describe L f)).

(** *** Operations of the language on values *)

(** [bool(v)]. *)
Definition truthy (v : pyval) : bool :=
  match v with
  | VNone => false
  | VBool b => b
  | VInt z => negb (z =? 0)
  | VFloat (Finite m _) => negb (m =? 0)
  | VFloat _ => true
  | VStr EmptyString => false
  | VStr _ => true
  end.

(** [a or b], for a [b] whose evaluation has no effect. *)
Definition py_or (a b : pyval) : pyval := if truthy a then a else b.

(** [str(v)], what an f-string puts for [{v}]. *)
Definition py_str (v : pyval) : string :=
  match v with
  | VNone => "None"
  | VBool b => if b then "True" else "False"
  | VInt z => Text.of_Z z
  | VFloat x => float_repr L x
  | VStr s => s
  end.

(** The receiver of a [str] method: [AttributeError] on any other value. *)
Definition str_receiver (v : pyval) (method : string) : outcome string :=
  match v with
  | VStr s => Returned s
  | _ => fault (NoAttribute v method)
  end.

(** [float(v)]. *)
Definition py_float (v : pyval) : outcome pyfloat :=
  match v with
  | VNone => fault (FloatOfValue v)
  | VBool b => Returned (Finite (if b then 1 else 0) 0)
  | VInt z =>
      match Float.of_ratio z 1 with
      | Some x => Returned x
      | None => fault IntTooLargeForFloat
      end
  | VFloat x => Returned x
  | VStr s =>
      match float_of_str L s with
      | Some x => Returned x
      | None => fault (FloatOfString s)
      end
  end.

(** [int(x)] on a float. *)
Definition py_int (x : pyfloat) : outcome Z :=
  match x with
  | Finite m e => Returned (Float.trunc m e)
  | Infinite _ => fault IntOfInfinity
  | Nan => fault IntOfNan
  end.

(** [n / 100] on an [int]. *)
Definition div_100 (n : Z) : outcome pyfloat :=
  match Float.of_ratio n 100 with
  | Some x => Returned x
  | None => fault DivisionTooLargeForFloat
  end.

Definition call {A} (c : StripeCall A) : M Env A := remote_call (stripe R c).

(** *** Action handlers

    Each handler is [try: ... except Exception as e: return f"Error ...: {str(e)}"];
    the block under [try] is the definition whose name ends in [_try]. *)

Definition create_customer_try (email name description : pyval) : M Env string :=
  let* name :=
    (if truthy name then ret name
     else let* s := lift (str_receiver email "split") in
          ret (VStr (Text.split_head "@" s))) in
  let* customer :=
    call (Customer_create email name
            (py_or description (VStr "Customer created via AI agent"))) in
  ret ("Customer " +:+ Customer.id customer
       +:+ " created successfully for " +:+ py_str email).

Definition create_customer (email name description : pyval) : M Env string :=
  try_except (create_customer_try email name description)
    (fun e => ret ("Error creating customer: " +:+ str_exn e)).

(** The inner [try] of [create_invoice]: the customer id the invoice is
    made for, which is the id of a new demo customer when the lookup
    raises [stripe.error.InvalidRequestError]. *)
Definition check_customer (customer_id : pyval) : M Env pyval :=
  try_except_class
    (let* _ := call (Customer_retrieve customer_id) in ret customer_id)
    is_InvalidRequestError
    (fun _ =>
       let demo_email := py_str customer_id +:+ "@demo.com" in
       let* demo_customer :=
         call (Customer_create (VStr demo_email)
                 (VStr ("Demo Customer " +:+ py_str customer_id))
                 (VStr "Demo customer created by AI agent")) in
       ret (VStr (Customer.id demo_customer))).

Definition create_invoice_try (customer_id amount currency description : pyval)
  : M Env string :=
  let* x := lift (py_float amount) in
  let* amount := lift (py_int x) in
  let* customer_id := check_customer customer_id in
  let* c := lift (str_receiver currency "lower") in
  let* invoice :=
    call (Invoice_create customer_id (str_lower L c)
            (py_or description (VStr "Invoice created by AI agent"))
            "send_invoice" 30) in
  let* invoice_item :=
    call (InvoiceItem_create customer_id (Invoice.id invoice) amount
            (str_lower L c) (py_or description (VStr "Invoice item"))) in
  let* finalized_invoice := call (Invoice_finalize_invoice (Invoice.id invoice)) in
  let* shown_amount := lift (div_100 amount) in
  let* shown_total := lift (div_100 (Invoice.total finalized_invoice)) in
  ret ("Invoice " +:+ Invoice.id finalized_invoice
       +:+ " created successfully for customer " +:+ py_str customer_id
       +:+ " with amount â‚¹" +:+ Float.format_2f shown_amount
       +:+ " " +:+ str_upper L c
       +:+ ". Total: â‚¹" +:+ Float.format_2f shown_total
       +:+ " " +:+ str_upper L c).

Definition create_invoice (customer_id amount currency description : pyval)
  : M Env string :=
  try_except (create_invoice_try customer_id amount currency description)
    (fun e => ret ("Error creating invoice: " +:+ str_exn e)).

Definition list_invoices_try (customer_id : pyval) : M Env string :=
  let* invoices :=
    (if truthy customer_id then call (Invoice_list (Some customer_id))
     else call (Invoice_list None)) in
  ret ("Found " +:+ Text.of_Z (Z.of_nat (length invoices)) +:+ " invoices.").

Definition list_invoices (customer_id : pyval) : M Env string :=
  try_except (list_invoices_try customer_id)
    (fun e => ret ("Error listing invoices: " +:+ str_exn e)).

(** *** The agent turn *)

Definition keys (args : gmap string pyval) : list string := (map_to_list args).*1.

(** Binding [f( **args )] to the parameters of [f]: an unexpected keyword
    is reported first, then the required parameters left without a value. *)
Definition bind_kwargs (function : string) (params required : list string)
  (args : gmap string pyval) : outcome unit :=
  match List.filter (fun k => negb (bool_decide (k ∈ params))) (keys args) with
  | [] =>
      match List.filter (fun k => negb (bool_decide (is_Some (args !! k)))) required with
      | [] => Returned tt
      | missing => fault (MissingArguments function missing)
      end
  | unexpected => fault (UnexpectedKeyword function unexpected)
  end.

(** The value bound to parameter [k]: the argument, else the default of the
    signature (a required parameter has an argument once [bind_kwargs]
    has returned). *)
Definition parameter (args : gmap string pyval) (k : string) (dflt : pyval) : pyval :=
  default dflt (args !! k).

(** [create_customer( **args )]. *)
Definition call_create_customer (args : gmap string pyval) : M Env string :=
  let* _ := lift (bind_kwargs "create_customer" ["email"; "name"; "description"]
                    ["email"] args) in
  create_customer (parameter args "email" VNone) (parameter args "name" (VStr EmptyString))
    (parameter args "description" (VStr EmptyString)).

(** [create_invoice( **args )]. *)
Definition call_create_invoice (args : gmap string pyval) : M Env string :=
  let* _ := lift (bind_kwargs "create_invoice"
                    ["customer_id"; "amount"; "currency"; "description"]
                    ["customer_id"; "amount"] args) in
  create_invoice (parameter args "customer_id" VNone) (parameter args "amount" VNone)
    (parameter args "currency" (VStr "inr")) (parameter args "description" (VStr EmptyString)).

(** [list_invoices( **args )]. *)
Definition call_list_invoices (args : gmap string pyval) : M Env string :=
  let* _ := lift (bind_kwargs "list_invoices" ["customer_id"] [] args) in
  list_invoices (parameter args "customer_id" VNone).

(** [for part in content.parts: ...]: [Some result] when the body returns
    [result] from the function, [None] when the loop runs to its end. *)
Fixpoint for_parts (ps : list Part) : M Env (option string) :=
  match ps with
  | [] => ret None
  | part :: rest =>
      let* _ := print (PrintPart part) in
      match function_call part with
      | Some function_call =>
          let* _ := print (PrintLine ("Function call detected: " +:+ name function_call)) in
          let* _ := print (PrintFunctionArgs (args function_call)) in
          if String.eqb (name function_call) "create_customer" then
            let* _ := print (PrintProcessedArgs (args function_call)) in
            let* result := call_create_customer (args function_call) in
            ret (Some ("ðŸ‘¤ " +:+ result))
          else if String.eqb (name function_call) "create_invoice" then
            let* _ := print (PrintProcessedArgs (args function_call)) in
            let* result := call_create_invoice (args function_call) in
            ret (Some ("âœ… " +:+ result))
          else if String.eqb (name function_call) "list_invoices" then
            let* result := call_list_invoices (args function_call) in
            ret (Some ("ðŸ“‹ " +:+ result))
          else for_parts rest
      | None => for_parts rest
      end
  end.

Definition run_quotation_agent (message : string) : M Env string :=
  try_except
    (let* response := remote_call (generate_content R message) in
     let* _ := print (PrintResponse response) in
     let* returned :=
       match candidates response with
       | candidate :: _ =>
           let* _ := print (PrintCandidate candidate) in
           match content candidate with
           | Some content =>
               let* _ := print (PrintParts (parts content)) in
               for_parts (parts content)
           | None => ret None
           end
       | [] => ret None
       end in
     match returned with
     | Some result => ret result
     | None => lift (text response)
     end)
    (fun e =>
       let* _ := print (PrintLine ("Error in run_quotation_agent: " +:+ str_exn e)) in
       let* _ := print (PrintTraceback e) in
       ret ("I'm sorry, I encountered an error while processing your request: "
            +:+ str_exn e)).

Definition process_chat_message (message : string) : M Env string :=
  try_except
    (let* result := run_quotation_agent message in
     ret result)
    (fun e =>
       let* _ := print (PrintLine ("Error processing message: " +:+ str_exn e)) in
       ret "I encountered an error while processing your message. Please try again.").

(** *** The connection manager *)

(** [l.remove(x)]: the list without the first occurrence of [x]; [None]
    when [x] is not in the list, where Python raises [ValueError]. *)
Fixpoint list_remove (x : WebSocket) (l : list WebSocket) : option (list WebSocket) :=
  match l with
  | [] => None
  | y :: l' => if Nat.eqb x y then Some l' else option_map (cons y) (list_remove x l')
  end.

Definition set_active_connections (l : list WebSocket) : M Env unit :=
  fun w =>
    ({| env := env w; conversation_history := conversation_history w;
        active_connections := l; stdout := stdout w; sent := sent w |}, Returned tt).

(** [ConnectionManager.connect]: the transport accepts, the connection is
    appended to the list. *)
Definition connect (websocket : WebSocket) : M Env unit :=
  fun w => set_active_connections (active_connections w ++ [websocket]) w.

(** [ConnectionManager.disconnect]. *)
Definition disconnect (websocket : WebSocket) : M Env unit :=
  fun w =>
    match list_remove websocket (active_connections w) with
    | Some l => set_active_connections l w
    | None => lift (fault RemoveAbsent) w
    end.

(** [ConnectionManager.send_message] on [response.model_dump_json()]: the
    record of what was sent keeps the response that was serialised. *)
Definition send_message (response : ChatResponse.t) (websocket : WebSocket)
  : M Env unit :=
  fun w =>
    ({| env := env w; conversation_history := conversation_history w;
        active_connections := active_connections w; stdout := stdout w;
        sent := sent w ++ [(websocket, response)] |}, Returned tt).

(** *** The message protocol *)

Definition required_str (fields : gmap string json) (k : string) : option string :=
  match fields !! k with
  | Some (JString s) => Some s
  | _ => None
  end.

Definition optional_str (fields : gmap string json) (k : string) (dflt : string)
  : option string :=
  match fields !! k with
  | None => Some dflt
  | Some (JString s) => Some s
  | Some _ => None
  end.

Definition optional_str_or_none (fields : gmap string json) (k : string)
  : option (option string) :=
  match fields !! k with
  | None | Some JNull => Some None
  | Some (JString s) => Some (Some s)
  | Some _ => None
  end.

(** Validation of the fields by pydantic: [None] when it raises
    [ValidationError]. *)
Definition validate (fields : gmap string json) : option ChatMessage.t :=
  match required_str fields "session_id", required_str fields "message",
        optional_str fields "user_id" "user",
        optional_str_or_none fields "timestamp",
        optional_str fields "message_type" "chat" with
  | Some session_id, Some message, Some user_id, Some timestamp, Some message_type =>
      Some {| ChatMessage.session_id := session_id;
              ChatMessage.message := message;
              ChatMessage.user_id := user_id;
              ChatMessage.timestamp := timestamp;
              ChatMessage.message_type := message_type |}
  | _, _, _, _, _ => None
  end.

(** [ChatMessage( **message_data )]. *)
Definition new_ChatMessage (message_data : json) : outcome ChatMessage.t :=
  match message_data with
  | JObject fields =>
      match validate fields with
      | Some chat_message => Returned chat_message
      | None => fault (InvalidFields fields)
      end
  | _ => fault (NotAMapping message_data)
  end.

(** [ChatResponse(session_id=..., message=..., timestamp=...)], the other
    fields at their defaults. *)
Definition new_ChatResponse (session_id message timestamp : string) : ChatResponse.t :=
  {| ChatResponse.session_id := session_id;
     ChatResponse.message := message;
     ChatResponse.sender := "agent";
     ChatResponse.timestamp := timestamp;
     ChatResponse.message_type := "response";
     ChatResponse.success := true;
     ChatResponse.error := None |}.

(** [conversation_history.clear()]. *)
Definition clear_conversation_history : M Env unit :=
  fun w =>
    ({| env := env w; conversation_history := [];
        active_connections := active_connections w; stdout := stdout w;
        sent := sent w |}, Returned tt).

Definition is_clear (chat_message : ChatMessage.t) : bool :=
  String.eqb (ChatMessage.message_type chat_message) "clear"
  || String.eqb (str_strip L (str_lower L (ChatMessage.message chat_message))) "/clear".

(** One turn of the [while True] loop of [websocket_endpoint], on the frame
    [data] that [receive_text] returned. *)
Definition serve_frame (websocket : WebSocket) (session_id data : string) : M Env unit :=
  try_except
    (let* message_data :=
       lift (match json_loads L data with
             | inl v => Returned v
             | inr class => fault (InvalidJSON class data)
             end) in
     let* chat_message := lift (new_ChatMessage message_data) in
     let* response :=
       (if is_clear chat_message then
          let* _ := clear_conversation_history in
          let* now := remote (datetime_now_isoformat R) in
          ret (new_ChatResponse (ChatMessage.session_id chat_message)
                 "Chat history has been cleared." now)
        else
          let* agent_response := process_chat_message (ChatMessage.message chat_message) in
          let* now := remote (datetime_now_isoformat R) in
          ret (new_ChatResponse (ChatMessage.session_id chat_message)
                 agent_response now)) in
     send_message response websocket)
    (fun e =>
       if is_JSONDecodeError e then
         let* agent_response := process_chat_message data in
         let* now := remote (datetime_now_isoformat R) in
         send_message (new_ChatResponse session_id agent_response now) websocket
       else
         let* now := remote (datetime_now_isoformat R) in
         send_message
           {| ChatResponse.session_id := session_id;
              ChatResponse.message := "Sorry, I encountered an error processing your message.";
              ChatResponse.sender := "agent";
              ChatResponse.timestamp := now;
              ChatResponse.message_type := "response";
              ChatResponse.success := false;
              ChatResponse.error := Some (str_exn e) |}
           websocket).

(** What ends the loop: the client disconnects, or it sends a binary frame. *)
Inductive Closing :=
| ClientDisconnect
| BinaryFrame.

(** [await websocket.receive_text()] on the message that ends the loop: on
    a disconnect it raises [WebSocketDisconnect]; on a binary frame the
    message has no text, and [message["text"]] raises [KeyError]. *)
Definition receive_text (closing : Closing) : outcome string :=
  match closing with
  | ClientDisconnect => fault Disconnected
  | BinaryFrame => fault NoTextInFrame
  end.

(** The loop on the text frames the client sends, up to the message on
    which [receive_text] raises. *)
Fixpoint serve (websocket : WebSocket) (session_id : string) (frames : list string)
  (closing : Closing) : M Env unit :=
  match frames with
  | [] => let* _ := lift (receive_text closing) in ret tt
  | data :: rest =>
      let* _ := serve_frame websocket session_id data in
      serve websocket session_id rest closing
  end.

Definition websocket_endpoint (websocket : WebSocket) (frames : list string)
  (closing : Closing) : M Env unit :=
  let* _ := connect websocket in
  let* session_id := remote (uuid4 R) in
  let* _ := print (PrintLine ("New WebSocket connection established with session ID: "
                              +:+ session_id)) in
  try_except_class (serve websocket session_id frames closing) is_WebSocketDisconnect
    (fun _ =>
       let* _ := disconnect websocket in
       print (PrintLine ("WebSocket connection closed for session: " +:+ session_id))).

(** [ConnectionManager.broadcast]: the loop over the connections and the
    method.  The message is a text; as in [send_message], it is held by the
    response it serialises. *)
Fixpoint for_connections (message : ChatResponse.t) (connections : list WebSocket)
  : M Env unit :=
  match connections with
  | [] => ret tt
  | connection :: rest =>
      let* _ := send_message message connection in
      for_connections message rest
  end.

Definition broadcast (message : ChatResponse.t) : M Env unit :=
  fun w => for_connections message (active_connections w) w.

(** *** The HTTP routes

    [API_KEY] is [os.getenv("API_KEY")], [None] when the variable is not
    set; [x_api_key] is the [x-api-key] header of the request, [None] when
    the request has none. *)

(** [APIKeyHeader(name="x-api-key", auto_error=False)] on the request: the
    value of the header, and [None] when the header is absent or empty. *)
Definition api_key_header (x_api_key : option string) : option string :=
  match x_api_key with
  | Some EmptyString => None
  | Some api_key => Some api_key
  | None => None
  end.

Definition verify_api_key (API_KEY api_key : option string) : http (option string) :=
  if negb (bool_decide (api_key = API_KEY))
  then HTTPException 403 "Invalid API Key"
  else Ok api_key.

(** [GET /]: the body [{"message": ...}] by its message. *)
Definition read_root (API_KEY x_api_key : option string) : http string :=
  match verify_api_key API_KEY (api_key_header x_api_key) with
  | Ok _ => Ok "API is working"
  | HTTPException status_code detail => HTTPException status_code detail
  end.

(** [POST /clear-chat]: the body [{"message": ..., "success": ...}] by its
    two members. *)
Definition clear_chat (API_KEY x_api_key : option string) (w : World Env)
  : World Env * http (string * bool) :=
  match verify_api_key API_KEY (api_key_header x_api_key) with
  | Ok _ =>
      ((clear_conversation_history w).1, Ok ("Chat history cleared successfully", true))
  | HTTPException status_code detail => (w, HTTPException status_code detail)
  end.

(** *** The payloads of the front end ([frontend.py])

    The two dictionaries the chat page sends, each on a connection of its
    own: the one of the "Clear Chat" button and the one of a prompt. *)

Definition clear_payload (session_id now : string) : gmap string json :=
  {[ "session_id" := JString session_id;
     "message" := JString "/clear";
     "timestamp" := JString now;
     "user_id" := JString "streamlit_user";
     "message_type" := JString "clear" ]}.

Definition message_payload (session_id prompt now : string) : gmap string json :=
  {[ "session_id" := JString session_id;
     "message" := JString prompt;
     "timestamp" := JString now;
     "user_id" := JString "streamlit_user";
     "message_type" := JString "chat" ]}.

(** *** The server under the event loop

    The endpoint is a coroutine: it gives the control back at each [await],
    and between two of them it runs alone.  What the event loop hands to
    the server is a sequence of events, those of all the connections and
    requests in the order in which they are served: a connection is opened
    (the endpoint runs to its first [receive_text]), a text frame arrives
    on a connection (the endpoint runs one turn of its loop, to the
    [send_message] and the next [receive_text]), a connection is closed
    ([receive_text] raises), [POST /clear-chat] is requested. *)

Inductive Event :=
| Opened (websocket : WebSocket)
| Received (websocket : WebSocket) (data : string)
| Closed (websocket : WebSocket) (closing : Closing)
| ClearChat (x_api_key : option string).

(** The process: the world, and the [session_id] of each endpoint that is
    waiting in [receive_text]. *)
Record System := {
  world : World Env;
  coroutines : gmap WebSocket string;
}.

(** The endpoint up to its loop. *)
Definition opened (websocket : WebSocket) : M Env string :=
  let* _ := connect websocket in
  let* session_id := remote (uuid4 R) in
  let* _ := print (PrintLine ("New WebSocket connection established with session ID: "
                              +:+ session_id)) in
  ret session_id.

(** The endpoint from the [receive_text] that raises. *)
Definition closed (websocket : WebSocket) (session_id : string) (closing : Closing)
  : M Env unit :=
  try_except_class (let* _ := lift (receive_text closing) in ret tt)
    is_WebSocketDisconnect
    (fun _ =>
       let* _ := disconnect websocket in
       print (PrintLine ("WebSocket connection closed for session: " +:+ session_id))).

(** One event.  An endpoint that raises is gone; a frame or a closing for
    a connection that has no endpoint waiting is not delivered. *)
Definition step (API_KEY : option string) (event : Event) (s : System) : System :=
  match event with
  | Opened websocket =>
      match opened websocket (world s) with
      | (w, Returned session_id) =>
          {| world := w; coroutines := <[websocket := session_id]> (coroutines s) |}
      | (w, Raised _) => {| world := w; coroutines := delete websocket (coroutines s) |}
      end
  | Received websocket data =>
      match coroutines s !! websocket with
      | Some session_id =>
          match serve_frame websocket session_id data (world s) with
          | (w, Returned _) => {| world := w; coroutines := coroutines s |}
          | (w, Raised _) => {| world := w; coroutines := delete websocket (coroutines s) |}
          end
      | None => s
      end
  | Closed websocket closing =>
      match coroutines s !! websocket with
      | Some session_id =>
          {| world := (closed websocket session_id closing (world s)).1;
             coroutines := delete websocket (coroutines s) |}
      | None => s
      end
  | ClearChat x_api_key =>
      {| world := (clear_chat API_KEY x_api_key (world s)).1;
         coroutines := coroutines s |}
  end.

Definition run (API_KEY : option string) (events : list Event) (s : System) : System :=
  fold_left (fun s event => step API_KEY event s) events s.

(** The events of one connection. *)
Definition connection (websocket : WebSocket) (frames : list string) (closing : Closing)
  : list Event :=
  Opened websocket :: List.map (Received websocket) frames ++ [Closed websocket closing].

End Program.


(** ** A world to run the program in

    An in-memory payments provider (sequential ids, a total that is the sum
    of the line items), a scripted model, a counting clock, and the library
    functions on the inputs of the examples. *)

Module Demo.

Record Stored := {
  stored_id : string;
  stored_customer : string;
  stored_items : list Z;
}.

Record Env := {
  customers : list string;
  invoices : list Stored;
  issued : Z;
  ticks : Z;
  model : string -> outcome GenerateContentResponse;
}.

Definition issue (prefix : string) (e : Env) : string := prefix +:+ Text.of_Z (issued e).

Definition find_invoice (id : string) (e : Env) : option Stored :=
  List.find (fun i => String.eqb (stored_id i) id) (invoices e).

Definition no_such (what id : string) : exn :=
  Exn InvalidRequestError ("No such " +:+ what +:+ ": '" +:+ id +:+ "'").

Definition text_of (v : pyval) : string :=
  match v with VStr s => s | _ => EmptyString end.

Definition add_item (id : string) (amount : Z) (i : Stored) : Stored :=
  if String.eqb (stored_id i) id then
    {| stored_id := stored_id i; stored_customer := stored_customer i;
       stored_items := stored_items i ++ [amount] |}
  else i.

Definition invoice_of (i : Stored) : Invoice.t :=
  {| Invoice.id := stored_id i; Invoice.total := fold_right Z.add 0 (stored_items i) |}.

Definition payments (A : Type) (c : StripeCall A) (e : Env) : Env * outcome A :=
  match c in StripeCall T return Env * outcome T with
  | Customer_create _ _ _ =>
      ({| customers := customers e ++ [issue "cus_" e]; invoices := invoices e;
          issued := issued e + 1; ticks := ticks e; model := model e |},
       Returned {| Customer.id := issue "cus_" e |})
  | Customer_retrieve id =>
      if bool_decide (text_of id ∈ customers e)
      then (e, Returned {| Customer.id := text_of id |})
      else (e, Raised (no_such "customer" (text_of id)))
  | Invoice_create customer _ _ _ _ =>
      let stored := {| stored_id := issue "in_" e; stored_customer := text_of customer;
                       stored_items := [] |} in
      ({| customers := customers e; invoices := invoices e ++ [stored];
          issued := issued e + 1; ticks := ticks e; model := model e |},
       Returned (invoice_of stored))
  | InvoiceItem_create _ invoice amount _ _ =>
      match find_invoice invoice e with
      | Some _ =>
          ({| customers := customers e;
              invoices := List.map (add_item invoice amount) (invoices e);
              issued := issued e + 1; ticks := ticks e; model := model e |},
           Returned {| InvoiceItem.id := issue "ii_" e |})
      | None => (e, Raised (no_such "invoice" invoice))
      end
  | Invoice_finalize_invoice id =>
      match find_invoice id e with
      | Some i => (e, Returned (invoice_of i))
      | None => (e, Raised (no_such "invoice" id))
      end
  | Invoice_list customer =>
      (e, Returned
            (List.map invoice_of
               (List.filter
                  (fun i => match customer with
                            | Some c => String.eqb (stored_customer i) (text_of c)
                            | None => true
                            end)
                  (invoices e))))
  end.

Definition remote : Remote Env := {|
  stripe := payments;
  generate_content := fun message e => (e, model e message);
  datetime_now_isoformat := fun e =>
    ({| customers := customers e; invoices := invoices e; issued := issued e;
        ticks := ticks e + 1; model := model e |},
     "2024-01-01T00:00:0" +:+ Text.of_Z (ticks e));
  uuid4 := fun e =>
    ({| customers := customers e; invoices := invoices e; issued := issued e + 1;
        ticks := ticks e; model := model e |},
     "00000000-0000-4000-8000-00000000000" +:+ Text.of_Z (issued e));
|}.

(** A provider that adds a tax of 18 per cent to the total of a finalized
    invoice, and is [payments] otherwise. *)
Definition taxing (A : Type) (c : StripeCall A) (e : Env) : Env * outcome A :=
  match c in StripeCall T return Env * outcome T with
  | Invoice_finalize_invoice id =>
      match find_invoice id e with
      | Some i =>
          let subtotal := fold_right Z.add 0 (stored_items i) in
          (e, Returned {| Invoice.id := stored_id i;
                          Invoice.total := subtotal + subtotal * 18 / 100 |})
      | None => (e, Raised (no_such "invoice" id))
      end
  | c' => payments _ c' e
  end.

Definition remote_with_tax : Remote Env := {|
  stripe := taxing;
  generate_content := generate_content remote;
  datetime_now_isoformat := datetime_now_isoformat remote;
  uuid4 := uuid4 remote;
|}.

(** The double quote. *)
Definition dq : ascii := Eval cbv in ascii_of_nat 34.

(** The text up to the closing quote and what follows it; escapes are not
    decoded. *)
Fixpoint read_string (s : string) : option (string * string) :=
  match s with
  | EmptyString => None
  | String c s' =>
      if Ascii.eqb c dq then Some (EmptyString, s')
      else if Ascii.eqb c "\"%char then None
      else match read_string s' with
           | Some (x, r) => Some (String c x, r)
           | None => None
           end
  end.

Fixpoint read_members (fuel : nat) (s : string) (acc : gmap string json)
  : option (gmap string json) :=
  match fuel, s with
  | S fuel, String q s1 =>
      if Ascii.eqb q dq then
        match read_string s1 with
        | Some (k, String colon (String q2 s2)) =>
            if Ascii.eqb colon ":"%char && Ascii.eqb q2 dq then
              match read_string s2 with
              | Some (v, String c rest) =>
                  if Ascii.eqb c "}"%char then
                    match rest with
                    | EmptyString => Some (<[k := JString v]> acc)
                    | _ => None
                    end
                  else if Ascii.eqb c ","%char then
                    read_members fuel rest (<[k := JString v]> acc)
                  else None
              | _ => None
              end
            else None
        | _ => None
        end
      else None
  | _, _ => None
  end.

(** The number of brackets the text opens before anything else. *)
Fixpoint opening_brackets (s : string) : nat :=
  match s with
  | String c s' => if Ascii.eqb c "["%char then S (opening_brackets s') else 0%nat
  | EmptyString => 0%nat
  end.

(** The text that opens [n] arrays and closes none. *)
Fixpoint brackets (n : nat) : string :=
  match n with
  | O => EmptyString
  | S n => String "["%char (brackets n)
  end.

(** [json.loads] on the frames of the examples: an object of text members
    written without spaces; a text that opens a thousand arrays or more
    exceeds the recursion limit of the interpreter; any other text is
    taken as not being JSON. *)
Definition loads (s : string) : json + exn_class :=
  if Nat.leb 1000 (opening_brackets s) then inr RecursionError
  else
    match s with
    | String c s' =>
        if Ascii.eqb c "{"%char
        then match read_members (String.length s') s' ∅ with
             | Some fields => inl (JObject fields)
             | None => inr JSONDecodeError
             end
        else inr JSONDecodeError
    | EmptyString => inr JSONDecodeError
    end.

Fixpoint read_digits (s : string) (acc : Z) : option Z :=
  match s with
  | EmptyString => Some acc
  | String c s' =>
      let n := Z.of_N (N_of_ascii c) in
      if (48 <=? n) && (n <=? 57) then read_digits s' (10 * acc + (n - 48)) else None
  end.

(** [float(s)] on a text of decimal digits. *)
Definition float_of_digits (s : string) : option pyfloat :=
  match s with
  | EmptyString => None
  | _ =>
      match read_digits s 0 with
      | Some z => Float.of_ratio z 1
      | None => None
      end
  end.

(** [str(x)] on a float with an integral value below [10^16]. *)
Definition repr (x : pyfloat) : string :=
  match x with
  | Finite m e => Text.of_Z (Float.trunc m e) +:+ ".0"
  | Infinite negative => if negative then "-inf" else "inf"
  | Nan => "nan"
  end.

Definition type_name (v : pyval) : string :=
  match v with
  | VNone => "NoneType"
  | VBool _ => "bool"
  | VInt _ => "int"
  | VFloat _ => "float"
  | VStr _ => "str"
  end.

(** The text operations of the demo library: the case mapping and the
    whitespace of ASCII, on which they are those of Python.  They stand in
    for [str.lower], [str.upper] and [str.strip] in the runs of this world
    only; the theorems hold for every library. *)

Definition is_upper (c : ascii) : bool :=
  let n := N_of_ascii c in (N.leb 65 n && N.leb n 90)%bool.

Definition is_lower (c : ascii) : bool :=
  let n := N_of_ascii c in (N.leb 97 n && N.leb n 122)%bool.

Definition lower_char (c : ascii) : ascii :=
  if is_upper c then ascii_of_N (N_of_ascii c + 32) else c.

Definition upper_char (c : ascii) : ascii :=
  if is_lower c then ascii_of_N (N_of_ascii c - 32) else c.

(** [str.lower()] and [str.upper()] on ASCII text. *)
Fixpoint lower (s : string) : string :=
  match s with
  | EmptyString => EmptyString
  | String c s' => String (lower_char c) (lower s')
  end.

Fixpoint upper (s : string) : string :=
  match s with
  | EmptyString => EmptyString
  | String c s' => String (upper_char c) (upper s')
  end.

(** The ASCII characters [str.strip()] removes: tab, line feed, vertical
    tab, form feed, carriage return, the four separators 0x1c-0x1f and the
    space. *)
Definition is_space (c : ascii) : bool :=
  let n := N_of_ascii c in
  ((N.leb 9 n && N.leb n 13) || (N.leb 28 n && N.leb n 32))%bool.

Fixpoint lstrip (s : string) : string :=
  match s with
  | EmptyString => EmptyString
  | String c s' => if is_space c then lstrip s' else s
  end.

Fixpoint rstrip (s : string) : string :=
  match s with
  | EmptyString => EmptyString
  | String c s' =>
      match rstrip s' with
      | EmptyString => if is_space c then EmptyString else String c EmptyString
      | r => String c r
      end
  end.

(** [str.strip()] on ASCII text. *)
Definition strip (s : string) : string := rstrip (lstrip s).

Definition wording (f : Fault) : string :=
  match f with
  | UnexpectedKeyword function ks =>
      function +:+ "() got an unexpected keyword argument '" +:+ hd EmptyString ks +:+ "'"
  | MissingArguments function ps =>
      function +:+ "() missing required positional arguments: "
      +:+ String.concat ", " ps
  | NoAttribute v attribute =>
      "'" +:+ type_name v +:+ "' object has no attribute '" +:+ attribute +:+ "'"
  | FloatOfValue v =>
      "float() argument must be a string or a real number, not '" +:+ type_name v +:+ "'"
  | FloatOfString s => "could not convert string to float: '" +:+ s +:+ "'"
  | IntOfNan => "cannot convert float NaN to integer"
  | IntOfInfinity => "cannot convert float infinity to integer"
  | IntTooLargeForFloat => "int too large to convert to float"
  | DivisionTooLargeForFloat => "integer division result too large for a float"
  | NotAMapping _ => "ChatMessage() argument after ** must be a mapping"
  | InvalidFields _ => "validation error for ChatMessage"
  | InvalidJSON RecursionError _ =>
      "maximum recursion depth exceeded while decoding a JSON array from a unicode string"
  | InvalidJSON _ _ => "Expecting value: line 1 column 1 (char 0)"
  | RemoveAbsent => "list.remove(x): x not in list"
  | NoTextInFrame => "'text'"
  | Disconnected => "1000"
  end.

Definition library : Library := {|
  json_loads := loads;
  float_of_str := float_of_digits;
  float_repr := repr;
  str_lower := lower;
  str_upper := upper;
  str_strip := strip;
  describe := wording;
|}.

(** A model that answers every message with the text [reply]. *)
Definition says (reply : string) (message : string) : outcome GenerateContentResponse :=
  Returned {| candidates := [ {| content := Some {| parts := [ {| function_call := None |} ] |} |} ];
              text := Returned reply |}.

(** A model that answers every message with one function call; reading the
    text of such a response raises [ValueError], as the SDK does. *)
Definition calls (tool : string) (arguments : gmap string pyval) (message : string)
  : outcome GenerateContentResponse :=
  Returned {| candidates :=
                [ {| content :=
                       Some {| parts := [ {| function_call :=
                                               Some {| name := tool; args := arguments |} |} ] |} |} ];
              text := Raised (Exn ValueError
                                "Could not convert `part.function_call` to text.") |}.

(** A model whose invocation fails. *)
Definition unreachable (message : string) : outcome GenerateContentResponse :=
  Raised (Exn (OtherError "ServiceUnavailable") "503 The model is overloaded.").

(** The process at start-up, with the customers the provider knows, two
    earlier entries in the conversation history and no connection. *)
Definition start (known : list string) (m : string -> outcome GenerateContentResponse)
  : World Env :=
  {| env := {| customers := known; invoices := []; issued := 1; ticks := 0; model := m |};
     conversation_history := ["hello"; "hi"];
     active_connections := [];
     stdout := [];
     sent := [] |}.

(** The members [k1:v1, k2:v2, ...] as JSON text. *)
Fixpoint members (ms : list (string * string)) : string :=
  match ms with
  | [] => EmptyString
  | [(k, v)] => String dq k +:+ String dq ":" +:+ String dq v +:+ String dq EmptyString
  | (k, v) :: ms =>
      String dq k +:+ String dq ":" +:+ String dq v +:+ String dq "," +:+ members ms
  end.

(** The frame whose text is the JSON object of the members [ms]. *)
Definition object (ms : list (string * string)) : string := "{" +:+ members ms +:+ "}".

(** The frame [{"session_id":"<session>","message":"<text>"}]. *)
Definition frame (session text : string) : string :=
  object [("session_id", session); ("message", text)].

End Demo.

(** * Properties *)

(** A computation that returns in every world: it never raises. *)
Definition total {Env A} (c : M Env A) : Prop :=
  forall w, exists w' a, c w = (w', Returned a).

(** A computation that leaves the conversation history, the connections
    and what was sent as they are: it only talks to the outside world and
    prints. *)
Definition quiet {Env A} (c : M Env A) : Prop :=
  forall w,
    conversation_history (c w).1 = conversation_history w
    /\ active_connections (c w).1 = active_connections w
    /\ sent (c w).1 = sent w.

(** The invariant of the responses: one that is flagged as failed carries
    an error text and the fixed message. *)
Definition response_invariant (r : ChatResponse.t) : Prop :=
  ChatResponse.success r = false ->
  (exists e, ChatResponse.error r = Some e /\ e <> EmptyString)
  /\ ChatResponse.message r = "Sorry, I encountered an error processing your message.".

(** The world [w] with another history, other connections and another
    record of what was sent. *)
Definition relocate {Env} (w : World Env) (history : list string)
  (connections : list WebSocket) (out : list (WebSocket * ChatResponse.t)) : World Env :=
  {| env := env w; conversation_history := history;
     active_connections := connections; stdout := stdout w; sent := out |}.

(** A computation that neither reads nor writes the history, the
    connections and what was sent: it runs the same whatever they are. *)
Definition local {Env A} (c : M Env A) : Prop :=
  forall w history connections out,
    c (relocate w history connections out)
    = (relocate (c w).1 history connections out, (c w).2).

(** The parameters of a registered tool and those that are required. *)
Definition signature (tool : string) : option (list string * list string) :=
  if String.eqb tool "create_customer"
  then Some (["email"; "name"; "description"], ["email"])
  else if String.eqb tool "create_invoice"
  then Some (["customer_id"; "amount"; "currency"; "description"],
             ["customer_id"; "amount"])
  else if String.eqb tool "list_invoices"
  then Some (["customer_id"], [])
  else None.

(** A response in which the first candidate carries no function call. *)
Definition no_function_call (response : GenerateContentResponse) : Prop :=
  match candidates response with
  | candidate :: _ =>
      match content candidate with
      | Some c => Forall (fun part => function_call part = None) (parts c)
      | None => True
      end
  | [] => True
  end.

Section Specification.

Context {Env : Type} (L : Library) (R : Remote Env).

(** The response to a frame that could not be validated. *)
Definition error_response (session_id now : string) (e : exn) : ChatResponse.t :=
  {| ChatResponse.session_id := session_id;
     ChatResponse.message := "Sorry, I encountered an error processing your message.";
     ChatResponse.sender := "agent";
     ChatResponse.timestamp := now;
     ChatResponse.message_type := "response";
     ChatResponse.success := false;
     ChatResponse.error := Some (str_exn e) |}.

(** The world after a turn of the endpoint: the clock was read in [w1], the
    history is [history] and [response] was sent on [websocket]. *)
Definition answered (w1 : World Env) (history : list string) (websocket : WebSocket)
  (response : string -> ChatResponse.t) : World Env :=
  let '(env', now) := datetime_now_isoformat R (env w1) in
  {| env := env'; conversation_history := history;
     active_connections := active_connections w1; stdout := stdout w1;
     sent := sent w1 ++ [(websocket, response now)] |}.

(** What the endpoint answers to a frame, by the ways the frame is read: a
    valid message, JSON that is not a valid message, a text on which
    [json.loads] raises [JSONDecodeError], one on which it raises another
    exception. *)
Definition answers (session_id data : string) (r : ChatResponse.t) : Prop :=
  match json_loads L data with
  | inl v =>
      match new_ChatMessage L v with
      | Returned m =>
          ChatResponse.session_id r = ChatMessage.session_id m
          /\ ChatResponse.message_type r = "response"
          /\ ChatResponse.success r = true
          /\ ChatResponse.error r = None
      | Raised e =>
          ChatResponse.session_id r = session_id
          /\ ChatResponse.message r
             = "Sorry, I encountered an error processing your message."
          /\ ChatResponse.success r = false
          /\ ChatResponse.error r = Some (str_exn e)
      end
  | inr JSONDecodeError =>
      ChatResponse.session_id r = session_id
      /\ ChatResponse.message_type r = "response"
      /\ ChatResponse.success r = true
      /\ ChatResponse.error r = None
  | inr class =>
      ChatResponse.session_id r = session_id
      /\ ChatResponse.message r
         = "Sorry, I encountered an error processing your message."
      /\ ChatResponse.success r = false
      /\ ChatResponse.error r = Some (describe L (InvalidJSON class data))
  end.

(** How the endpoint ends: it returns when the client disconnects, and the
    [KeyError] of a binary frame comes out of it. *)
Definition ending (closing : Closing) : outcome unit :=
  match closing with
  | ClientDisconnect => Returned tt
  | BinaryFrame => Raised (Exn KeyError (describe L NoTextInFrame))
  end.

(** A frame that is a valid message and a clear command. *)
Definition is_clear_frame (data : string) : bool :=
  match json_loads L data with
  | inl v =>
      match new_ChatMessage L v with
      | Returned m => is_clear L m
      | Raised _ => false
      end
  | inr _ => false
  end.

(** A request that [verify_api_key] lets through: its [x-api-key] header is
    the configured key, which is not empty; without a configured key, the
    request has no header or an empty one. *)
Definition authorised (API_KEY x_api_key : option string) : Prop :=
  match API_KEY with
  | Some key => key <> EmptyString /\ x_api_key = Some key
  | None => x_api_key = None \/ x_api_key = Some EmptyString
  end.

(** An event that may empty the conversation history: a frame that is a
    clear command, an authorised request of [POST /clear-chat]. *)
Definition clears (API_KEY : option string) (event : Event) : bool :=
  match event with
  | Received _ data => is_clear_frame data
  | ClearChat x_api_key => bool_decide (api_key_header x_api_key = API_KEY)
  | _ => false
  end.

(** An event that opens or closes the connection of [websocket]. *)
Definition opens_or_closes (websocket : WebSocket) (event : Event) : bool :=
  match event with
  | Opened c | Closed c _ => Nat.eqb c websocket
  | Received _ _ | ClearChat _ => false
  end.

End Specification.

Section Monad.

Context {Env : Type}.

Lemma total_ret {A} (a : A) : total (@ret Env A a).
Proof. intros w. exists w, a. reflexivity. Qed.

Lemma total_bind {A B} (c : M Env A) (k : A -> M Env B) :
  total c -> (forall a, total (k a)) -> total (bind c k).
Proof.
  intros Hc Hk w. destruct (Hc w) as (w1 & a & E).
  destruct (Hk a w1) as (w2 & b & E2).
  exists w2, b. unfold bind. rewrite E. exact E2.
Qed.

Lemma total_try_except {A} (body : M Env A) (handler : exn -> M Env A) :
  (forall e, total (handler e)) -> total (try_except body handler).
Proof.
  intros H w. unfold try_except.
  destruct (body w) as [w1 [a | e]]; [exists w1, a; reflexivity | apply H].
Qed.

Lemma total_print (p : Printed) : total (@print Env p).
Proof. intros w. eexists _, tt. reflexivity. Qed.

Lemma total_remote {A} (f : Env -> Env * A) : total (remote f).
Proof.
  intros w. unfold remote. destruct (f (env w)) as [e a]. eexists _, a. reflexivity.
Qed.

Lemma quiet_ret {A} (a : A) : quiet (@ret Env A a).
Proof. intros w. repeat split. Qed.

Lemma quiet_lift {A} (o : outcome A) : quiet (@lift Env A o).
Proof. intros w. repeat split. Qed.

Lemma quiet_raise {A} (e : exn) : quiet (@raise Env A e).
Proof. intros w. repeat split. Qed.

Lemma quiet_print (p : Printed) : quiet (@print Env p).
Proof. intros w. repeat split. Qed.

Lemma quiet_remote {A} (f : Env -> Env * A) : quiet (remote f).
Proof. intros w. unfold remote. destruct (f (env w)). repeat split. Qed.

Lemma quiet_bind {A B} (c : M Env A) (k : A -> M Env B) :
  quiet c -> (forall a, quiet (k a)) -> quiet (bind c k).
Proof.
  intros Hc Hk w. unfold bind. specialize (Hc w).
  destruct (c w) as [w1 [a | e]]; cbn in *; [| exact Hc].
  destruct (Hk a w1) as (H1 & H2 & H3), Hc as (G1 & G2 & G3).
  repeat split; congruence.
Qed.

Lemma quiet_try_except {A} (body : M Env A) (handler : exn -> M Env A) :
  quiet body -> (forall e, quiet (handler e)) -> quiet (try_except body handler).
Proof.
  intros Hb Hh w. unfold try_except. specialize (Hb w).
  destruct (body w) as [w1 [a | e]]; cbn in *; [exact Hb |].
  destruct (Hh e w1) as (H1 & H2 & H3), Hb as (G1 & G2 & G3).
  repeat split; congruence.
Qed.

Lemma quiet_try_except_class {A} (body : M Env A) (is_C : exn -> bool)
  (handler : exn -> M Env A) :
  quiet body -> (forall e, quiet (handler e)) -> quiet (try_except_class body is_C handler).
Proof.
  intros Hb Hh. apply quiet_try_except; [exact Hb |].
  intros e. destruct (is_C e); [apply Hh | apply quiet_raise].
Qed.

Lemma quiet_remote_call {A} (f : Env -> Env * outcome A) : quiet (remote_call f).
Proof. apply quiet_bind; [apply quiet_remote | intros; apply quiet_lift]. Qed.

(** Inversion of a computation that returned. *)

Lemma bind_returned {A B} (c : M Env A) (k : A -> M Env B) w w' b :
  bind c k w = (w', Returned b) ->
  exists w1 a, c w = (w1, Returned a) /\ k a w1 = (w', Returned b).
Proof.
  unfold bind. destruct (c w) as [w1 [a | e]]; intros H; [eauto | discriminate].
Qed.

Lemma lift_returned {A} (o : outcome A) (w w' : World Env) a :
  lift o w = (w', Returned a) -> o = Returned a /\ w' = w.
Proof. unfold lift. intros H. injection H as -> ->. auto. Qed.

Lemma ret_returned {A} (x : A) (w w' : World Env) a :
  ret x w = (w', Returned a) -> a = x /\ w' = w.
Proof. unfold ret. intros H. injection H as -> ->. auto. Qed.

Lemma remote_call_returned {A} (f : Env -> Env * outcome A) w w' a :
  remote_call f w = (w', Returned a) ->
  exists env', f (env w) = (env', Returned a) /\ w' = set_env w env'.
Proof.
  unfold remote_call, bind, remote, lift.
  destruct (f (env w)) as [env' [x | e]]; intros H; [| discriminate].
  injection H as <- <-. eauto.
Qed.

Lemma bind_raised {A B} (c : M Env A) (k : A -> M Env B) w w1 e :
  c w = (w1, Raised e) -> bind c k w = (w1, Raised e).
Proof. intros H. unfold bind. rewrite H. reflexivity. Qed.

Lemma remote_call_raised {A} (f : Env -> Env * outcome A) w env' e :
  f (env w) = (env', Raised e) -> remote_call f w = (set_env w env', Raised e).
Proof. intros H. unfold remote_call, bind, remote, lift. rewrite H. reflexivity. Qed.

Lemma remote_call_value {A} (f : Env -> Env * outcome A) w env' a :
  f (env w) = (env', Returned a) -> remote_call f w = (set_env w env', Returned a).
Proof. intros H. unfold remote_call, bind, remote, lift. rewrite H. reflexivity. Qed.

End Monad.

Create HintDb quiet.
Create HintDb total.

#[local] Hint Resolve quiet_ret quiet_lift quiet_raise quiet_print quiet_remote
  quiet_remote_call : quiet.
#[local] Hint Resolve total_ret total_print total_remote : total.

(** Splits a goal [quiet c] along the structure of [c]. *)
Ltac quiet_steps :=
  repeat first
    [ apply quiet_bind; [| intros ?]
    | apply quiet_try_except; [| intros ?]
    | apply quiet_try_except_class; [| intros ?]
    | solve [auto with quiet]
    | match goal with
      | |- quiet (if ?b then _ else _) => destruct b
      | |- quiet (match ?x with _ => _ end) => destruct x
      end ].

(** ** Division by 100 and the [.2f] format on integers of minor units *)

Lemma round_half_even_unique x y a :
  0 < y -> 2 * Z.abs (x - a * y) < y -> Float.round_half_even x y = a.
Proof.
  intros Hy Hd. unfold Float.round_half_even.
  pose proof (Z.div_mod x y ltac:(lia)) as Hdm.
  pose proof (Z.mod_pos_bound x y Hy) as Hm.
  assert (Hq : x / y = a \/ x / y = a - 1) by nia.
  destruct (2 * (x mod y) <? y) eqn:E1; [apply Z.ltb_lt in E1; nia |].
  apply Z.ltb_ge in E1.
  destruct (y <? 2 * (x mod y)) eqn:E2; [apply Z.ltb_lt in E2; nia |].
  apply Z.ltb_ge in E2. nia.
Qed.

Lemma round_half_even_error x y :
  0 < y -> 2 * Z.abs (Float.round_half_even x y * y - x) <= y.
Proof.
  intros Hy. unfold Float.round_half_even.
  pose proof (Z.div_mod x y ltac:(lia)) as Hdm.
  pose proof (Z.mod_pos_bound x y Hy) as Hm.
  destruct (2 * (x mod y) <? y) eqn:E1; [apply Z.ltb_lt in E1; nia |].
  apply Z.ltb_ge in E1.
  destruct (y <? 2 * (x mod y)) eqn:E2; [apply Z.ltb_lt in E2; nia |].
  apply Z.ltb_ge in E2. destruct (Z.even (x / y)); nia.
Qed.

Lemma exponent_cents a : 0 < a < 2 ^ 50 -> -1074 <= Float.exponent a 100 <= -9.
Proof.
  intros Ha. unfold Float.exponent.
  assert (Hl : Z.log2 a < 50) by (apply Z.log2_lt_pow2; lia).
  change (Z.log2 100) with 6.
  destruct (Float.scaled a 100 (Z.log2 a - 6 - 52)) as [x y].
  destruct (2 ^ 52 * y <=? x); lia.
Qed.

(** Below [2^50] minor units, [n/100] under [.2f] is the exact decimal text
    of [n] hundredths: the rounding of the division is undone by the
    rounding of the format. *)
Lemma format_2f_cents n :
  Z.abs n < 2 ^ 50 ->
  exists x, Float.of_ratio n 100 = Some x /\ Float.format_2f x = Text.cents n.
Proof.
  intros Hn. unfold Float.of_ratio.
  destruct (n =? 0) eqn:E0.
  - apply Z.eqb_eq in E0. subst n. eexists. split; reflexivity.
  - apply Z.eqb_neq in E0.
    assert (Ha : 0 < Z.abs n < 2 ^ 50) by lia.
    pose proof (exponent_cents _ Ha) as He.
    set (e := Float.exponent (Z.abs n) 100) in *.
    unfold Float.scaled at 1.
    destruct (0 <=? e) eqn:Ee; [apply Z.leb_le in Ee; lia |].
    assert (Hk : 2 ^ 9 <= 2 ^ (- e)) by (apply Z.pow_le_mono_r; lia).
    set (k := 2 ^ (- e)) in *.
    pose proof (round_half_even_error (Z.abs n * k) 100 ltac:(lia)) as Hm.
    set (m := Float.round_half_even (Z.abs n * k) 100) in *.
    assert (Hmpos : 0 < m) by (change (2 ^ 9) with 512 in Hk; nia).
    rewrite (Z.pow_neg_r 2 e) by lia. rewrite Z.mul_0_r.
    change (2 ^ 1024 <=? 0) with false. cbv iota.
    eexists. split; [reflexivity |].
    unfold Float.format_2f, Float.scaled.
    assert (Hs : Z.abs (Z.sgn n * m) = m) by (destruct n; cbn; lia).
    rewrite Hs.
    destruct (0 <=? - e) eqn:Ee'; [| apply Z.leb_gt in Ee'; lia].
    fold k. rewrite Z.mul_1_l.
    rewrite (round_half_even_unique (m * 100) k (Z.abs n))
      by (change (2 ^ 9) with 512 in Hk; lia).
    assert (Hsign : (Z.sgn n * m <? 0) = (n <? 0)).
    { destruct (n <? 0) eqn:En; [apply Z.ltb_lt in En; apply Z.ltb_lt |
                                  apply Z.ltb_ge in En; apply Z.ltb_ge]; nia. }
    rewrite Hsign. reflexivity.
Qed.

Section Handlers.

Context {Env : Type} (L : Library) (R : Remote Env).

Lemma quiet_call {A} (c : StripeCall A) : quiet (call R c).
Proof. unfold call. auto with quiet. Qed.

#[local] Hint Resolve quiet_call : quiet.

Lemma quiet_create_customer email name description :
  quiet (create_customer L R email name description).
Proof. unfold create_customer, create_customer_try. quiet_steps. Qed.

Lemma quiet_check_customer customer_id : quiet (check_customer L R customer_id).
Proof. unfold check_customer. quiet_steps. Qed.

#[local] Hint Resolve quiet_check_customer : quiet.

Lemma quiet_create_invoice customer_id amount currency description :
  quiet (create_invoice L R customer_id amount currency description).
Proof. unfold create_invoice, create_invoice_try. quiet_steps. Qed.

Lemma quiet_list_invoices customer_id : quiet (list_invoices R customer_id).
Proof. unfold list_invoices, list_invoices_try. quiet_steps. Qed.

#[local] Hint Resolve quiet_create_customer quiet_create_invoice quiet_list_invoices
  : quiet.

Lemma quiet_for_parts ps : quiet (for_parts L R ps).
Proof.
  induction ps as [| part rest IH]; cbn [for_parts]; [auto with quiet |].
  unfold call_create_customer, call_create_invoice, call_list_invoices.
  quiet_steps; exact IH.
Qed.

#[local] Hint Resolve quiet_for_parts : quiet.

Lemma quiet_run_quotation_agent message : quiet (run_quotation_agent L R message).
Proof. unfold run_quotation_agent. quiet_steps. Qed.

Lemma total_run_quotation_agent message : total (run_quotation_agent L R message).
Proof.
  apply total_try_except. intros e.
  repeat (apply total_bind; [auto with total | intros ?]). auto with total.
Qed.

Lemma quiet_process_chat_message message : quiet (process_chat_message L R message).
Proof.
  unfold process_chat_message.
  apply quiet_try_except; [| intros e; quiet_steps].
  apply quiet_bind; [apply quiet_run_quotation_agent | auto with quiet].
Qed.

Lemma total_process_chat_message message : total (process_chat_message L R message).
Proof.
  apply total_try_except. intros e.
  apply total_bind; [auto with total | intros ?; auto with total].
Qed.

(** What a turn of the agent leaves behind: a text, and a world in which the
    history, the connections and the responses sent are untouched. *)
Lemma process_chat_message_returns message w :
  exists w' s,
    process_chat_message L R message w = (w', Returned s)
    /\ conversation_history w' = conversation_history w
    /\ active_connections w' = active_connections w
    /\ sent w' = sent w.
Proof.
  destruct (total_process_chat_message message w) as (w' & s & E).
  exists w', s. split; [exact E |].
  pose proof (quiet_process_chat_message message w) as Hq. rewrite E in Hq. exact Hq.
Qed.

End Handlers.

Section Invoices.

Context {Env : Type} (L : Library) (R : Remote Env).


(** A successful run of the [try] block of [create_invoice], step by step. *)
Lemma create_invoice_try_returned customer_id amount currency description w w' s :
  create_invoice_try L R customer_id amount currency description w = (w', Returned s) ->
  exists x n w1 customer_id' c env2 invoice env3 item env4 finalized shown_amount shown_total,
    py_float L amount = Returned x
    /\ py_int L x = Returned n
    /\ check_customer L R customer_id w = (w1, Returned customer_id')
    /\ str_receiver L currency "lower" = Returned c
    /\ stripe R (Invoice_create customer_id' (str_lower L c)
                   (py_or description (VStr "Invoice created by AI agent"))
                   "send_invoice" 30) (env w1) = (env2, Returned invoice)
    /\ stripe R (InvoiceItem_create customer_id' (Invoice.id invoice) n (str_lower L c)
                   (py_or description (VStr "Invoice item"))) env2 = (env3, Returned item)
    /\ stripe R (Invoice_finalize_invoice (Invoice.id invoice)) env3
       = (env4, Returned finalized)
    /\ div_100 L n = Returned shown_amount
    /\ div_100 L (Invoice.total finalized) = Returned shown_total
    /\ s = "Invoice " +:+ Invoice.id finalized
           +:+ " created successfully for customer " +:+ py_str L customer_id'
           +:+ " with amount â‚¹" +:+ Float.format_2f shown_amount
           +:+ " " +:+ str_upper L c
           +:+ ". Total: â‚¹" +:+ Float.format_2f shown_total
           +:+ " " +:+ str_upper L c.
Proof.
  unfold create_invoice_try, call. intros H.
  apply bind_returned in H as (? & x & Hx & H). apply lift_returned in Hx as (Hx & ->).
  apply bind_returned in H as (? & n & Hn & H). apply lift_returned in Hn as (Hn & ->).
  apply bind_returned in H as (w1 & customer_id' & Hc & H).
  apply bind_returned in H as (? & c & Hl & H). apply lift_returned in Hl as (Hl & ->).
  apply bind_returned in H as (? & invoice & Hi & H).
  apply remote_call_returned in Hi as (env2 & Hi & ->).
  apply bind_returned in H as (? & item & Hit & H).
  apply remote_call_returned in Hit as (env3 & Hit & ->).
  apply bind_returned in H as (? & finalized & Hf & H).
  apply remote_call_returned in Hf as (env4 & Hf & ->).
  apply bind_returned in H as (? & a & Ha & H). apply lift_returned in Ha as (Ha & ->).
  apply bind_returned in H as (? & t & Ht & H). apply lift_returned in Ht as (Ht & ->).
  apply ret_returned in H as (-> & ->).
  exists x, n, w1, customer_id', c, env2, invoice, env3, item, env4, finalized, a, t.
  cbn in Hit, Hf. repeat split; assumption || reflexivity.
Qed.

End Invoices.

Section HandlerClaims.

Context {Env : Type} (L : Library) (R : Remote Env).





(** C8, as the code has it: in a successful call of create_invoice the
    amount is first coerced by [int(float(amount))] to an integer [n] of
    minor units, the single line item attached to the invoice carries [n],
    and the result text shows [n/100] as the amount and, as the total, the
    total of the finalized invoice as the provider returns it, divided by
    100, both under [.2f]; below [2^50] minor units each is shown as its
    exact decimal text in major units, with two decimals. *)
Theorem create_invoice_reported_total
  customer_id amount currency description w w' s
  (Hsuccess : create_invoice_try L R customer_id amount currency description w
              = (w', Returned s)) :
  exists x n customer_id' c invoice env2 env3 item env4 finalized shown_amount shown_total,
    py_float L amount = Returned x
    /\ py_int L x = Returned n
    /\ stripe R (InvoiceItem_create customer_id' (Invoice.id invoice) n (str_lower L c)
                   (py_or description (VStr "Invoice item"))) env2 = (env3, Returned item)
    /\ stripe R (Invoice_finalize_invoice (Invoice.id invoice)) env3
       = (env4, Returned finalized)
    /\ div_100 L n = Returned shown_amount
    /\ div_100 L (Invoice.total finalized) = Returned shown_total
    /\ s = "Invoice " +:+ Invoice.id finalized
           +:+ " created successfully for customer " +:+ py_str L customer_id'
           +:+ " with amount â‚¹" +:+ Float.format_2f shown_amount
           +:+ " " +:+ str_upper L c
           +:+ ". Total: â‚¹" +:+ Float.format_2f shown_total
           +:+ " " +:+ str_upper L c
    /\ (Z.abs n < 2 ^ 50 -> Float.format_2f shown_amount = Text.cents n)
    /\ (Z.abs (Invoice.total finalized) < 2 ^ 50 ->
        Float.format_2f shown_total = Text.cents (Invoice.total finalized)).
Proof.
  apply create_invoice_try_returned in Hsuccess
    as (x & n & w1 & customer_id' & c & env2 & invoice & env3 & item & env4 & fin
        & a & t & Hx & Hn & Hc & Hl & Hi & Hit & Hf & Ha & Ht & ->).
  exists x, n, customer_id', c, invoice, env2, env3, item, env4, fin, a, t.
  split; [exact Hx |]. split; [exact Hn |]. split; [exact Hit |].
  split; [exact Hf |]. split; [exact Ha |]. split; [exact Ht |].
  split; [reflexivity |]. split.
  - intros Hbound. destruct (format_2f_cents _ Hbound) as (y & Hy & <-).
    unfold div_100 in Ha. rewrite Hy in Ha. injection Ha as ->. reflexivity.
  - intros Hbound. destruct (format_2f_cents _ Hbound) as (y & Hy & <-).
    unfold div_100 in Ht. rewrite Hy in Ht. injection Ht as ->. reflexivity.
Qed.

End HandlerClaims.

Section Endpoint.

Context {Env : Type} (L : Library) (R : Remote Env).


Lemma serve_frame_clear websocket session_id data w v m :
  json_loads L data = inl v ->
  new_ChatMessage L v = Returned m ->
  is_clear L m = true ->
  serve_frame L R websocket session_id data w
  = (answered R w [] websocket
       (new_ChatResponse (ChatMessage.session_id m) "Chat history has been cleared."),
     Returned tt).
Proof.
  intros Hj Hm Hc. unfold serve_frame, try_except, bind, answered.
  rewrite Hj. cbn. rewrite Hm. cbn. rewrite Hc. cbn.
  unfold remote. cbn. destruct (datetime_now_isoformat R (env w)) as [env' now].
  reflexivity.
Qed.

Lemma serve_frame_chat websocket session_id data w v m :
  json_loads L data = inl v ->
  new_ChatMessage L v = Returned m ->
  is_clear L m = false ->
  exists w1 s,
    process_chat_message L R (ChatMessage.message m) w = (w1, Returned s)
    /\ serve_frame L R websocket session_id data w
       = (answered R w1 (conversation_history w) websocket
            (new_ChatResponse (ChatMessage.session_id m) s),
          Returned tt).
Proof.
  intros Hj Hm Hc.
  destruct (process_chat_message_returns L R (ChatMessage.message m) w)
    as (w1 & s & E & Hh & Ha & Hs).
  exists w1, s. split; [exact E |].
  unfold serve_frame, try_except, bind, answered.
  rewrite Hj. cbn. rewrite Hm. cbn. rewrite Hc, E. cbn.
  unfold remote. cbn. destruct (datetime_now_isoformat R (env w1)) as [env' now].
  unfold send_message, set_env. cbn. congruence.
Qed.

Lemma serve_frame_plain websocket session_id data w :
  json_loads L data = inr JSONDecodeError ->
  exists w1 s,
    process_chat_message L R data w = (w1, Returned s)
    /\ serve_frame L R websocket session_id data w
       = (answered R w1 (conversation_history w) websocket
            (new_ChatResponse session_id s),
          Returned tt).
Proof.
  intros Hj.
  destruct (process_chat_message_returns L R data w) as (w1 & s & E & Hh & Ha & Hs).
  exists w1, s. split; [exact E |].
  unfold serve_frame, try_except, bind, answered.
  rewrite Hj. cbn. rewrite E. cbn.
  unfold remote. cbn. destruct (datetime_now_isoformat R (env w1)) as [env' now].
  unfold send_message, set_env. cbn. congruence.
Qed.

(** A frame on which [json.loads] raises another exception than
    [JSONDecodeError] is answered by the last [except] clause. *)
Lemma serve_frame_failed websocket session_id data w class :
  json_loads L data = inr class ->
  class <> JSONDecodeError ->
  serve_frame L R websocket session_id data w
  = (answered R w (conversation_history w) websocket
       (fun now => error_response session_id now
                     (Exn class (describe L (InvalidJSON class data)))),
     Returned tt).
Proof.
  intros Hj Hc. unfold serve_frame, try_except, bind, answered.
  rewrite Hj. cbn.
  destruct class; try contradiction; cbn;
    unfold remote; cbn; destruct (datetime_now_isoformat R (env w)) as [env' now];
    reflexivity.
Qed.

Lemma new_ChatMessage_raised v e :
  new_ChatMessage L v = Raised e ->
  is_JSONDecodeError e = false
  /\ (str_exn e = describe L (NotAMapping v)
      \/ exists fields, str_exn e = describe L (InvalidFields fields)).
Proof.
  unfold new_ChatMessage, fault.
  destruct v; try (intros H; injection H as <-; cbn; auto).
  destruct (validate fields); intros H; [discriminate |].
  injection H as <-. cbn. eauto.
Qed.

Lemma serve_frame_invalid websocket session_id data w v e :
  json_loads L data = inl v ->
  new_ChatMessage L v = Raised e ->
  serve_frame L R websocket session_id data w
  = (answered R w (conversation_history w) websocket
       (fun now => error_response session_id now e),
     Returned tt).
Proof.
  intros Hj Hm. destruct (new_ChatMessage_raised _ _ Hm) as (Hc & _).
  unfold serve_frame, try_except, bind, answered.
  rewrite Hj. cbn. rewrite Hm. cbn. rewrite Hc.
  unfold remote. cbn. destruct (datetime_now_isoformat R (env w)) as [env' now].
  reflexivity.
Qed.

End Endpoint.

Section Turns.

#[local] Open Scope list_scope.

Context {Env : Type} (L : Library) (R : Remote Env).

Lemma sent_answered (w1 : World Env) history websocket response :
  sent (answered R w1 history websocket response)
  = sent w1 ++ [(websocket, response (datetime_now_isoformat R (env w1)).2)].
Proof.
  unfold answered. destruct (datetime_now_isoformat R (env w1)). reflexivity.
Qed.

Lemma active_connections_answered (w1 : World Env) history websocket response :
  active_connections (answered R w1 history websocket response) = active_connections w1.
Proof.
  unfold answered. destruct (datetime_now_isoformat R (env w1)). reflexivity.
Qed.

Lemma invariant_new_ChatResponse session_id message now :
  response_invariant (new_ChatResponse session_id message now).
Proof. intros H. discriminate. Qed.

Lemma invariant_error_response session_id now e :
  str_exn e <> EmptyString -> response_invariant (error_response session_id now e).
Proof. intros He _. split; [exists (str_exn e); auto | reflexivity]. Qed.

(** Every turn of the endpoint returns, having sent one response on the
    connection of the frame; the response satisfies the invariant when the
    library words its faults. *)
Lemma serve_frame_sends websocket session_id data w :
  exists w' r,
    serve_frame L R websocket session_id data w = (w', Returned tt)
    /\ sent w' = sent w ++ [(websocket, r)]
    /\ active_connections w' = active_connections w
    /\ answers L session_id data r
    /\ ((forall f, describe L f <> EmptyString) -> response_invariant r).
Proof.
  unfold answers.
  destruct (json_loads L data) as [v | class] eqn:Hj.
  - destruct (new_ChatMessage L v) as [m | e] eqn:Hm.
    + destruct (is_clear L m) eqn:Hc.
      * eexists _, _. split; [apply (serve_frame_clear L R _ _ _ _ _ _ Hj Hm Hc) |].
        rewrite sent_answered, active_connections_answered.
        refine (conj eq_refl (conj eq_refl (conj _ _))); [cbn; auto |].
        intros _. apply invariant_new_ChatResponse.
      * destruct (serve_frame_chat L R websocket session_id _ w _ _ Hj Hm Hc)
          as (w1 & s & E & ->).
        destruct (process_chat_message_returns L R (ChatMessage.message m) w)
          as (w1' & s' & E' & Hh & Ha & Hs).
        rewrite E in E'. injection E' as <- <-.
        eexists _, _. split; [reflexivity |].
        rewrite sent_answered, active_connections_answered, Hs, Ha.
        refine (conj eq_refl (conj eq_refl (conj _ _))); [cbn; auto |].
        intros _. apply invariant_new_ChatResponse.
    + eexists _, _. split; [apply (serve_frame_invalid L R _ _ _ _ _ _ Hj Hm) |].
      rewrite sent_answered, active_connections_answered.
      refine (conj eq_refl (conj eq_refl (conj _ _))); [cbn; auto |].
      intros Hw. apply invariant_error_response.
      destruct (new_ChatMessage_raised L _ _ Hm) as (_ & [-> | (fields & ->)]); apply Hw.
  - assert (Hother : class <> JSONDecodeError ->
              exists w' r,
                serve_frame L R websocket session_id data w = (w', Returned tt)
                /\ sent w' = sent w ++ [(websocket, r)]
                /\ active_connections w' = active_connections w
                /\ (ChatResponse.session_id r = session_id
                    /\ ChatResponse.message r
                       = "Sorry, I encountered an error processing your message."
                    /\ ChatResponse.success r = false
                    /\ ChatResponse.error r = Some (describe L (InvalidJSON class data)))
                /\ ((forall f, describe L f <> EmptyString) -> response_invariant r)).
    { intros Hc. eexists _, _.
      split; [apply (serve_frame_failed L R _ _ _ _ _ Hj Hc) |].
      rewrite sent_answered, active_connections_answered.
      refine (conj eq_refl (conj eq_refl (conj _ _))); [cbn; auto |].
      intros Hw. apply invariant_error_response. apply Hw. }
    destruct class; try (apply Hother; discriminate).
    destruct (serve_frame_plain L R websocket session_id _ w Hj) as (w1 & s & E & ->).
    destruct (process_chat_message_returns L R data w)
      as (w1' & s' & E' & Hh & Ha & Hs).
    rewrite E in E'. injection E' as <- <-.
    eexists _, _. split; [reflexivity |].
    rewrite sent_answered, active_connections_answered, Hs, Ha.
    refine (conj eq_refl (conj eq_refl (conj _ _))); [cbn; auto |].
    intros _. apply invariant_new_ChatResponse.
Qed.

(** The exception on which the loop ends. *)
Lemma receive_text_raises closing :
  exists e, receive_text L closing = Raised e
            /\ is_WebSocketDisconnect e
               = match closing with ClientDisconnect => true | BinaryFrame => false end
            /\ e = match closing with
                   | ClientDisconnect => Exn WebSocketDisconnect (describe L Disconnected)
                   | BinaryFrame => Exn KeyError (describe L NoTextInFrame)
                   end.
Proof. destruct closing; eexists; repeat split; reflexivity. Qed.

(** The loop ends with the exception of [receive_text], one response sent
    per frame. *)
Lemma serve_sends websocket session_id frames closing :
  forall w,
  exists w' e rs,
    serve L R websocket session_id frames closing w = (w', Raised e)
    /\ receive_text L closing = Raised e
    /\ sent w' = sent w ++ List.map (pair websocket) rs
    /\ active_connections w' = active_connections w
    /\ Forall2 (answers L session_id) frames rs
    /\ ((forall f, describe L f <> EmptyString) -> Forall response_invariant rs).
Proof.
  induction frames as [| data rest IH]; intros w.
  - destruct (receive_text_raises closing) as (e & He & _).
    exists w, e, []. cbn [serve]. unfold bind, lift. rewrite He.
    cbn. rewrite app_nil_r.
    refine (conj eq_refl (conj eq_refl (conj eq_refl (conj eq_refl (conj _ _)))));
      [constructor | intros _; constructor].
  - destruct (serve_frame_sends websocket session_id data w)
      as (w1 & r & E & Hs & Ha & Hans & Hr).
    destruct (IH w1) as (w' & e & rs & E' & He & Hs' & Ha' & Hall & Hrs).
    exists w', e, (r :: rs). cbn [serve]. unfold bind. rewrite E.
    split; [exact E' |]. split; [exact He |].
    split; [rewrite Hs', Hs, <- app_assoc; reflexivity |].
    split; [congruence |].
    split; [constructor; assumption |].
    intros Hw. constructor; auto.
Qed.

Lemma list_remove_last websocket l :
  exists l', list_remove websocket (l ++ [websocket]) = Some l'.
Proof.
  induction l as [| y l IH]; cbn.
  - rewrite Nat.eqb_refl. eauto.
  - destruct (Nat.eqb websocket y); [eauto |].
    destruct IH as (l' & ->). cbn. eauto.
Qed.

(** A connection from its opening to its end: what the endpoint sent is
    one response per frame, on its own connection, under the session id
    that [uuid4] gave when the connection was opened. *)
Lemma websocket_endpoint_sends websocket frames closing w :
  exists w' rs,
    websocket_endpoint L R websocket frames closing w = (w', ending L closing)
    /\ sent w' = sent w ++ List.map (pair websocket) rs
    /\ Forall2 (answers L (uuid4 R (env w)).2) frames rs
    /\ ((forall f, describe L f <> EmptyString) -> Forall response_invariant rs).
Proof.
  unfold websocket_endpoint, bind at 1, connect, set_active_connections. cbn.
  unfold bind at 1, remote. cbn.
  destruct (uuid4 R (env w)) as [env1 session_id]. cbn.
  unfold bind at 1, print at 1. cbn.
  unfold try_except_class, try_except.
  match goal with |- context [serve L R websocket session_id frames closing ?w0] =>
    destruct (serve_sends websocket session_id frames closing w0)
      as (w1 & e & rs & E & He & Hs & Ha & Hall & Hrs)
  end.
  rewrite E. cbn in Hs, Ha.
  destruct closing; cbn in He; injection He as <-; cbn.
  - unfold bind, disconnect. rewrite Ha.
    destruct (list_remove_last websocket (active_connections w)) as (l' & ->).
    cbn. eexists _, rs. split; [reflexivity |]. cbn. auto.
  - eexists _, rs. split; [reflexivity |]. auto.
Qed.

End Turns.

Section EndpointClaims.

#[local] Open Scope list_scope.

Context {Env : Type} (L : Library) (R : Remote Env).


(** C6, as the code has it: a text frame on which [json.loads] raises
    [JSONDecodeError] does not end the connection.  In the world in which
    it arrives, the turn gives the raw payload to the agent as chat text
    and sends its reply in a response with message_type "response" and
    success true, under the session id of the endpoint; the turn returns,
    so that the loop goes on.  On a connection, whatever the frames before
    and after it and the way the connection ends, that session id is the
    one the server drew with uuid4 when the connection was opened. *)
Theorem non_json_frames_answered websocket data
  (Hjson : json_loads L data = inr JSONDecodeError) :
  (forall session_id w,
      exists w1 s,
        process_chat_message L R data w = (w1, Returned s)
        /\ serve_frame L R websocket session_id data w
           = (answered R w1 (conversation_history w) websocket
                (fun now =>
                   {| ChatResponse.session_id := session_id;
                      ChatResponse.message := s;
                      ChatResponse.sender := "agent";
                      ChatResponse.timestamp := now;
                      ChatResponse.message_type := "response";
                      ChatResponse.success := true;
                      ChatResponse.error := None |}),
              Returned tt))
  /\ (forall before after closing w,
         exists w' rs1 r rs2,
           websocket_endpoint L R websocket (before ++ data :: after) closing w
           = (w', ending L closing)
           /\ sent w' = sent w ++ List.map (pair websocket) (rs1 ++ r :: rs2)
           /\ length rs1 = length before
           /\ ChatResponse.session_id r = (uuid4 R (env w)).2
           /\ ChatResponse.message_type r = "response"
           /\ ChatResponse.success r = true
           /\ ChatResponse.error r = None).
Proof.
  split.
  - intros session_id w.
    destruct (serve_frame_plain L R websocket session_id data w Hjson)
      as (w1 & s & E & Es).
    exists w1, s. split; [exact E | exact Es].
  - intros before after closing w.
    destruct (websocket_endpoint_sends L R websocket (before ++ data :: after) closing w)
      as (w' & rs & E & Hs & Hall & _).
    apply Forall2_app_inv_l in Hall as (rs1 & rest & H1 & H2 & ->).
    apply Forall2_cons_inv_l in H2 as (r & rs2 & Hans & _ & ->).
    exists w', rs1, r, rs2. split; [exact E |]. split; [exact Hs |].
    split; [symmetry; eapply Forall2_length; exact H1 |].
    unfold answers in Hans. rewrite Hjson in Hans. exact Hans.
Qed.

(** C10: on a connection, the response to a frame that is JSON and a valid
    ChatMessage carries the session id of that message; the session id the
    server drew for the connection is used for the frames on which
    [json.loads] raises and for those that are not valid messages. *)
Theorem valid_frames_keep_session_id websocket frames closing w :
  exists w' rs,
    websocket_endpoint L R websocket frames closing w = (w', ending L closing)
    /\ sent w' = sent w ++ List.map (pair websocket) rs
    /\ Forall2
         (fun data r =>
            (forall v m,
                json_loads L data = inl v -> new_ChatMessage L v = Returned m ->
                ChatResponse.session_id r = ChatMessage.session_id m)
            /\ (forall class,
                   json_loads L data = inr class ->
                   ChatResponse.session_id r = (uuid4 R (env w)).2)
            /\ (forall v e,
                   json_loads L data = inl v -> new_ChatMessage L v = Raised e ->
                   ChatResponse.session_id r = (uuid4 R (env w)).2))
         frames rs.
Proof.
  destruct (websocket_endpoint_sends L R websocket frames closing w)
    as (w' & rs & E & Hs & Hall & _).
  exists w', rs. split; [exact E |]. split; [exact Hs |].
  eapply Forall2_impl; [exact Hall |].
  intros data r Hans. unfold answers in Hans. repeat split.
  - intros v m Hj Hm. rewrite Hj, Hm in Hans. apply Hans.
  - intros class Hj. rewrite Hj in Hans. destruct class; apply Hans.
  - intros v e Hj Hm. rewrite Hj, Hm in Hans. apply Hans.
Qed.


End EndpointClaims.

Section AgentClaims.

#[local] Open Scope list_scope.

Context {Env : Type} (L : Library) (R : Remote Env).

(** A function call whose name is none of the three tools is passed over:
    the loop goes on with the parts that follow. *)
Lemma for_parts_unregistered part rest fc w :
  function_call part = Some fc ->
  String.eqb (name fc) "create_customer" = false ->
  String.eqb (name fc) "create_invoice" = false ->
  String.eqb (name fc) "list_invoices" = false ->
  for_parts L R (part :: rest) w
  = for_parts L R rest
      {| env := env w; conversation_history := conversation_history w;
         active_connections := active_connections w;
         stdout := ((stdout w ++ [PrintPart part])
                    ++ [PrintLine ("Function call detected: " +:+ name fc)])
                   ++ [PrintFunctionArgs (args fc)];
         sent := sent w |}.
Proof.
  intros Hfc H1 H2 H3. cbn [for_parts]. rewrite Hfc.
  unfold bind, print. cbn. rewrite H1, H2, H3. reflexivity.
Qed.

(** The turn of the agent on a response whose only part is a function call
    to a name that is none of the three tools: the result is the text of the
    response, or the apology when reading the text raises; in both cases a
    text that the endpoint sends as any other. *)
Lemma run_quotation_agent_unregistered message w env1 response candidate part fc :
  generate_content R message (env w) = (env1, Returned response) ->
  candidates response = [candidate] ->
  content candidate = Some {| parts := [part] |} ->
  function_call part = Some fc ->
  String.eqb (name fc) "create_customer" = false ->
  String.eqb (name fc) "create_invoice" = false ->
  String.eqb (name fc) "list_invoices" = false ->
  exists w1,
    run_quotation_agent L R message w
    = (w1,
       Returned
         match text response with
         | Returned t => t
         | Raised e =>
             "I'm sorry, I encountered an error while processing your request: "
             +:+ str_exn e
         end).
Proof.
  intros Hg Hc Hp Hfc H1 H2 H3. unfold run_quotation_agent, try_except.
  unfold bind at 1. rewrite (remote_call_value _ _ _ _ Hg).
  unfold bind at 1, print at 1. cbn. rewrite Hc.
  unfold bind at 1. unfold bind at 1, print at 1. cbn. rewrite Hp.
  unfold bind at 1, print at 1. cbn [parts].
  rewrite (for_parts_unregistered part [] fc _ Hfc H1 H2 H3). cbn.
  destruct (text response) as [t | e]; cbn; eauto.
Qed.

(** The turn of the agent when the invocation of the model raises. *)
Lemma run_quotation_agent_model_raised message w env1 e :
  generate_content R message (env w) = (env1, Raised e) ->
  run_quotation_agent L R message w
  = ({| env := env1; conversation_history := conversation_history w;
        active_connections := active_connections w;
        stdout := (stdout w
                   ++ [PrintLine ("Error in run_quotation_agent: " +:+ str_exn e)])
                  ++ [PrintTraceback e];
        sent := sent w |},
     Returned ("I'm sorry, I encountered an error while processing your request: "
               +:+ str_exn e)).
Proof.
  intros H. unfold run_quotation_agent, try_except.
  rewrite (bind_raised _ _ _ _ _ (remote_call_raised _ _ _ _ H)).
  reflexivity.
Qed.

(** C2, as the code has it: when the invocation of the model raises [e], the
    turn of the agent ends by returning the text "I'm sorry, I encountered
    an error while processing your request: " followed by [str(e)], after
    printing the error and its traceback; the response sent for a chat
    message that led to it has success true and no error field, and that
    text as its message. *)
Theorem model_failure_answered_in_text message w env1 e
  (Hraised : generate_content R message (env w) = (env1, Raised e)) :
  let apology :=
    "I'm sorry, I encountered an error while processing your request: " +:+ str_exn e in
  (exists w1,
      run_quotation_agent L R message w = (w1, Returned apology)
      /\ env w1 = env1
      /\ stdout w1
         = stdout w ++ [PrintLine ("Error in run_quotation_agent: " +:+ str_exn e);
                        PrintTraceback e])
  /\ (forall websocket session_id data v m,
         json_loads L data = inl v ->
         new_ChatMessage L v = Returned m ->
         is_clear L m = false ->
         ChatMessage.message m = message ->
         exists w' r,
           serve_frame L R websocket session_id data w = (w', Returned tt)
           /\ sent w' = sent w ++ [(websocket, r)]
           /\ ChatResponse.success r = true
           /\ ChatResponse.error r = None
           /\ ChatResponse.message r = apology).
Proof.
  intros apology. pose proof (run_quotation_agent_model_raised _ _ _ _ Hraised) as Hrun.
  split.
  - eexists. split; [exact Hrun |]. cbn. rewrite <- app_assoc. auto.
  - intros websocket session_id data v m Hj Hm Hc <-.
    destruct (serve_frame_chat L R websocket session_id data w v m Hj Hm Hc)
      as (w1 & s & E & Es).
    unfold process_chat_message, try_except, bind in E. rewrite Hrun in E.
    cbn in E. injection E as <- <-.
    eexists _, _. split; [exact Es |].
    rewrite sent_answered. cbn. auto.
Qed.

(** The connection manager on a connection that is not registered. *)
Lemma disconnect_absent websocket (w : World Env) :
  list_remove websocket (active_connections w) = None ->
  disconnect L websocket w
  = (w, Raised (Exn ValueError (describe L RemoveAbsent))).
Proof. intros H. unfold disconnect. rewrite H. reflexivity. Qed.

End AgentClaims.

(** * The program run in the demo world *)

#[local] Open Scope list_scope.

(** C1, on the code: the model answers the chat frame
    [{"session_id":"s1","message":"delete invoice 7"}] with one function call
    named "delete_invoice", which is none of the three tools.  The call is
    passed over, reading the text of the response raises, and the client gets
    an ordinary response: success is true and the error field is empty. *)
Theorem unregistered_tool_not_flagged :
  sent (websocket_endpoint Demo.library Demo.remote 7%nat
          [Demo.frame "s1" "delete invoice 7"] ClientDisconnect
          (Demo.start [] (Demo.calls "delete_invoice" ∅))).1
  = [(7%nat,
      {| ChatResponse.session_id := "s1";
         ChatResponse.message :=
           "I'm sorry, I encountered an error while processing your request: Could not convert `part.function_call` to text.";
         ChatResponse.sender := "agent";
         ChatResponse.timestamp := "2024-01-01T00:00:00";
         ChatResponse.message_type := "response";
         ChatResponse.success := true;
         ChatResponse.error := None |})].
Proof. vm_compute. reflexivity. Qed.

(** C7 does not hold as stated: once a connection has been removed from
    the list, a second call of disconnect for it raises ValueError. *)
Lemma disconnect_twice_raises :
  (let* _ := connect 7%nat in
   let* _ := disconnect Demo.library 7%nat in
   disconnect Demo.library 7%nat) (Demo.start [] (Demo.says "ok"))
  = (Demo.start [] (Demo.says "ok"),
     Raised (Exn ValueError "list.remove(x): x not in list")).
Proof. vm_compute. reflexivity. Qed.

(** C2 does not hold as stated: the model's invocation raises, and the
    response the client receives has success true, no error field, and the
    text of the exception inside its message. *)
Lemma model_failure_counterexample :
  let w := Demo.start [] Demo.unreachable in
  generate_content Demo.remote "list my invoices" (env w)
  = (env w, Raised (Exn (OtherError "ServiceUnavailable") "503 The model is overloaded."))
  /\ sent (websocket_endpoint Demo.library Demo.remote 7%nat
             [Demo.frame "s1" "list my invoices"] ClientDisconnect w).1
     = [(7%nat,
         {| ChatResponse.session_id := "s1";
            ChatResponse.message :=
              "I'm sorry, I encountered an error while processing your request: 503 The model is overloaded.";
            ChatResponse.sender := "agent";
            ChatResponse.timestamp := "2024-01-01T00:00:00";
            ChatResponse.message_type := "response";
            ChatResponse.success := true;
            ChatResponse.error := None |})]
  /\ ~ (forall x,
           x ∈ sent (websocket_endpoint Demo.library Demo.remote 7%nat
                       [Demo.frame "s1" "list my invoices"] ClientDisconnect w).1 ->
           ChatResponse.success x.2 = false).
Proof.
  intros w.
  assert (Hsent : sent (websocket_endpoint Demo.library Demo.remote 7%nat
                          [Demo.frame "s1" "list my invoices"] ClientDisconnect w).1
                  = [(7%nat,
                      {| ChatResponse.session_id := "s1";
                         ChatResponse.message :=
                           "I'm sorry, I encountered an error while processing your request: 503 The model is overloaded.";
                         ChatResponse.sender := "agent";
                         ChatResponse.timestamp := "2024-01-01T00:00:00";
                         ChatResponse.message_type := "response";
                         ChatResponse.success := true;
                         ChatResponse.error := None |})])
    by (vm_compute; reflexivity).
  split; [reflexivity |]. split; [exact Hsent |].
  intros H. rewrite Hsent in H.
  specialize (H _ (list_elem_of_here _ _)). discriminate H.
Qed.




(** C8 does not hold as stated: the provider adds a tax of 18 per cent to
    the invoice it finalizes; the single line item is of 10000 minor units,
    and the total reported is 118.00. *)
Lemma reported_total_counterexample :
  let w := Demo.start ["cus_9"] (Demo.says "ok") in
  let called := create_invoice Demo.library Demo.remote_with_tax (VStr "cus_9")
                  (VInt 10000) (VStr "inr") (VStr EmptyString) w in
  called.2
  = Returned "Invoice in_1 created successfully for customer cus_9 with amount â‚¹100.00 INR. Total: â‚¹118.00 INR"
  /\ List.map Demo.stored_items (Demo.invoices (env called.1)) = [[10000]]
  /\ Text.cents (fold_right Z.add 0 [10000]) = "100.00".
Proof.
  intros w called. split; [vm_compute; reflexivity |].
  split; vm_compute; reflexivity.
Qed.

(** An invoice of 12345 minor units for a known customer: the line item
    carries 12345 and the total shown is "123.45". *)
Lemma create_invoice_reported_total_witness :
  let w := Demo.start ["cus_9"] (Demo.says "ok") in
  exists w' s x n shown_total,
    create_invoice_try Demo.library Demo.remote (VStr "cus_9") (VInt 12345)
      (VStr "usd") (VStr EmptyString) w = (w', Returned s)
    /\ py_float Demo.library (VInt 12345) = Returned x
    /\ py_int Demo.library x = Returned n
    /\ n = 12345
    /\ div_100 Demo.library n = Returned shown_total
    /\ Float.format_2f shown_total = "123.45".
Proof.
  intros w.
  eassert (Hsuccess : create_invoice_try Demo.library Demo.remote (VStr "cus_9")
                        (VInt 12345) (VStr "usd") (VStr EmptyString) w
                      = (_, Returned _)) by (vm_compute; reflexivity).
  destruct (create_invoice_reported_total Demo.library Demo.remote
              (VStr "cus_9") (VInt 12345) (VStr "usd") (VStr EmptyString)
              w _ _ Hsuccess)
    as (x & n & cid & c & invoice & env2 & env3 & item & env4 & fin & a & t
        & Hx & Hn & _ & _ & Ha & _ & _ & _).
  eexists _, _, x, n, a.
  split; [exact Hsuccess |].
  split; [exact Hx |]. split; [exact Hn |].
  vm_compute in Hx. injection Hx as <-.
  vm_compute in Hn. injection Hn as <-.
  split; [reflexivity |]. split; [exact Ha |].
  vm_compute in Ha. injection Ha as <-. vm_compute. reflexivity.
Defined.



(** C6 does not hold as stated: a frame that opens a thousand arrays and
    closes none is not JSON; [json.loads] raises [RecursionError] on it,
    and the frame is answered with the error response, the agent not being
    asked. *)
Lemma deep_nesting_counterexample :
  let data := Demo.brackets 1000 in
  let w := Demo.start [] (Demo.says "ok") in
  let w' := (websocket_endpoint Demo.library Demo.remote 7%nat [data] ClientDisconnect
               w).1 in
  json_loads Demo.library data = inr RecursionError
  /\ sent w'
     = [(7%nat,
         {| ChatResponse.session_id := "00000000-0000-4000-8000-000000000001";
            ChatResponse.message :=
              "Sorry, I encountered an error processing your message.";
            ChatResponse.sender := "agent";
            ChatResponse.timestamp := "2024-01-01T00:00:00";
            ChatResponse.message_type := "response";
            ChatResponse.success := false;
            ChatResponse.error :=
              Some "maximum recursion depth exceeded while decoding a JSON array from a unicode string" |})]
  /\ (process_chat_message Demo.library Demo.remote data w).2 = Returned "ok".
Proof.
  intros data w w'. split; [vm_compute; reflexivity |].
  split; vm_compute; reflexivity.
Qed.

(** The text "hello there" on a connection. *)
Lemma non_json_frames_answered_witness :
  let w := Demo.start [] (Demo.says "Hi, how can I help?") in
  json_loads Demo.library "hello there" = inr JSONDecodeError
  /\ exists w1 s,
      process_chat_message Demo.library Demo.remote "hello there" w = (w1, Returned s)
      /\ serve_frame Demo.library Demo.remote 7%nat "sid" "hello there" w
         = (answered Demo.remote w1 (conversation_history w) 7%nat
              (new_ChatResponse "sid" s),
            Returned tt)
      /\ s = "Hi, how can I help?".
Proof.
  intros w.
  assert (Hjson : json_loads Demo.library "hello there" = inr JSONDecodeError)
    by (vm_compute; reflexivity).
  split; [exact Hjson |].
  destruct (non_json_frames_answered Demo.library Demo.remote 7%nat "hello there" Hjson)
    as (Hturn & _).
  destruct (Hturn "sid" w) as (w1 & s & E & Es).
  exists w1, s. split; [exact E |]. split; [exact Es |].
  vm_compute in E. injection E as _ <-. reflexivity.
Defined.

(** The model is down when "s1" asks for its invoices. *)
Lemma model_failure_answered_in_text_witness :
  let w := Demo.start [] Demo.unreachable in
  let e := Exn (OtherError "ServiceUnavailable") "503 The model is overloaded." in
  generate_content Demo.remote "list my invoices" (env w) = (env w, Raised e)
  /\ exists w1,
      run_quotation_agent Demo.library Demo.remote "list my invoices" w
      = (w1, Returned "I'm sorry, I encountered an error while processing your request: 503 The model is overloaded.")
      /\ stdout w1 = [PrintLine "Error in run_quotation_agent: 503 The model is overloaded.";
                      PrintTraceback e].
Proof.
  intros w e. split; [reflexivity |].
  destruct (model_failure_answered_in_text Demo.library Demo.remote
              "list my invoices" w (env w) e eq_refl) as ((w1 & Hrun & _ & Hout) & _).
  exists w1. split; [exact Hrun | exact Hout].
Defined.

(** A handler on an argument of the wrong type: the AttributeError of
    [email.split] is returned as text. *)
Example create_customer_error_text :
  (create_customer Demo.library Demo.remote (VFloat (Finite 5 0)) (VStr EmptyString)
     (VStr EmptyString) (Demo.start [] (Demo.says "ok"))).2
  = Returned "Error creating customer: 'float' object has no attribute 'split'".
Proof. vm_compute. reflexivity. Qed.

(** A connection that sends a text that is not JSON, then a chat message of
    session "s1": the first response carries the id the server drew, the
    second the id of the message. *)
Example session_ids_of_a_connection :
  List.map (fun x => (ChatResponse.session_id x.2, ChatResponse.message x.2))
    (sent (websocket_endpoint Demo.library Demo.remote 7%nat
             ["hello there"; Demo.frame "s1" "hello"] ClientDisconnect
             (Demo.start [] (Demo.says "Hi, how can I help?"))).1)
  = [("00000000-0000-4000-8000-000000000001", "Hi, how can I help?");
     ("s1", "Hi, how can I help?")].
Proof. vm_compute. reflexivity. Qed.

(** * Further properties of the program *)

(** ** The agent and the handlers are local *)

Section Locality.

Context {Env : Type}.

Lemma local_ret {A} (a : A) : local (@ret Env A a).
Proof. intros w h a' s. reflexivity. Qed.

Lemma local_lift {A} (o : outcome A) : local (@lift Env A o).
Proof. intros w h a' s. reflexivity. Qed.

Lemma local_raise {A} (e : exn) : local (@raise Env A e).
Proof. intros w h a' s. reflexivity. Qed.

Lemma local_print (p : Printed) : local (@print Env p).
Proof. intros w h a' s. reflexivity. Qed.

Lemma local_remote {A} (f : Env -> Env * A) : local (remote f).
Proof.
  intros w h a' s. unfold remote. cbn. destruct (f (env w)). reflexivity.
Qed.

Lemma local_bind {A B} (c : M Env A) (k : A -> M Env B) :
  local c -> (forall a, local (k a)) -> local (bind c k).
Proof.
  intros Hc Hk w h a' s. unfold bind. rewrite Hc.
  destruct (c w) as [w1 [a | e]]; cbn; [apply Hk | reflexivity].
Qed.

Lemma local_try_except {A} (body : M Env A) (handler : exn -> M Env A) :
  local body -> (forall e, local (handler e)) -> local (try_except body handler).
Proof.
  intros Hb Hh w h a' s. unfold try_except. rewrite Hb.
  destruct (body w) as [w1 [a | e]]; cbn; [reflexivity | apply Hh].
Qed.

Lemma local_try_except_class {A} (body : M Env A) (is_C : exn -> bool)
  (handler : exn -> M Env A) :
  local body -> (forall e, local (handler e)) -> local (try_except_class body is_C handler).
Proof.
  intros Hb Hh. apply local_try_except; [exact Hb |].
  intros e. destruct (is_C e); [apply Hh | apply local_raise].
Qed.

Lemma local_remote_call {A} (f : Env -> Env * outcome A) : local (remote_call f).
Proof. apply local_bind; [apply local_remote | intros; apply local_lift]. Qed.

End Locality.

Create HintDb local.

#[local] Hint Resolve local_ret local_lift local_raise local_print local_remote
  local_remote_call : local.

(** Splits a goal [local c] along the structure of [c]. *)
Ltac local_steps :=
  repeat first
    [ apply local_bind; [| intros ?]
    | apply local_try_except; [| intros ?]
    | apply local_try_except_class; [| intros ?]
    | solve [auto with local]
    | match goal with
      | |- local (if ?b then _ else _) => destruct b
      | |- local (match ?x with _ => _ end) => destruct x
      end ].

Section AgentLocality.

Context {Env : Type} (L : Library) (R : Remote Env).

Lemma local_call {A} (c : StripeCall A) : local (call R c).
Proof. unfold call. auto with local. Qed.

#[local] Hint Resolve local_call : local.

Lemma local_create_customer email name description :
  local (create_customer L R email name description).
Proof. unfold create_customer, create_customer_try. local_steps. Qed.

Lemma local_create_invoice customer_id amount currency description :
  local (create_invoice L R customer_id amount currency description).
Proof. unfold create_invoice, create_invoice_try, check_customer. local_steps. Qed.

Lemma local_list_invoices customer_id : local (list_invoices R customer_id).
Proof. unfold list_invoices, list_invoices_try. local_steps. Qed.

#[local] Hint Resolve local_create_customer local_create_invoice local_list_invoices
  : local.

Lemma local_for_parts ps : local (for_parts L R ps).
Proof.
  induction ps as [| part rest IH]; cbn [for_parts]; [auto with local |].
  unfold call_create_customer, call_create_invoice, call_list_invoices.
  local_steps; exact IH.
Qed.

#[local] Hint Resolve local_for_parts : local.

Lemma local_run_quotation_agent message : local (run_quotation_agent L R message).
Proof. unfold run_quotation_agent. local_steps. Qed.

(** X1: a turn of the agent neither reads nor writes the conversation
    history, the connections and the responses sent: run in a world where
    these are replaced by any others, it returns the same text, prints the
    same and leaves the outside world in the same state, and the
    replacements are still there afterwards. *)
Theorem agent_ignores_history message (w : World Env) history connections out :
  process_chat_message L R message (relocate w history connections out)
  = (relocate (process_chat_message L R message w).1 history connections out,
     (process_chat_message L R message w).2).
Proof.
  revert w history connections out. change (local (process_chat_message L R message)).
  unfold process_chat_message.
  apply local_try_except; [| intros e; local_steps].
  apply local_bind; [apply local_run_quotation_agent | auto with local].
Qed.

End AgentLocality.

(** ** The connection manager *)

Section ConnectionManager.

#[local] Open Scope list_scope.

Context {Env : Type} (L : Library).

Lemma list_remove_Some x l l' :
  list_remove x l = Some l'
  <-> exists l1 l2, l = l1 ++ x :: l2 /\ (x ∉ l1) /\ l' = l1 ++ l2.
Proof.
  revert l'. induction l as [| y l IH]; intros l'; cbn.
  - split; [discriminate |]. intros (l1 & l2 & H & _). destruct l1; discriminate.
  - destruct (Nat.eqb_spec x y) as [-> | Hne].
    + split.
      * intros [= <-]. exists [], l. split; [reflexivity |].
        split; [apply not_elem_of_nil | reflexivity].
      * intros (l1 & l2 & H & Hni & ->). destruct l1 as [| z l1].
        -- cbn in H. injection H as <-. reflexivity.
        -- cbn in H. injection H as <- _. exfalso. apply Hni. apply list_elem_of_here.
    + destruct (list_remove x l) as [r |] eqn:E; cbn.
      * split.
        -- intros [= <-]. destruct (proj1 (IH r) eq_refl) as (l1 & l2 & -> & Hni & ->).
           exists (y :: l1), l2. split; [reflexivity |]. split; [| reflexivity].
           rewrite not_elem_of_cons. auto.
        -- intros (l1 & l2 & H & Hni & ->). destruct l1 as [| z l1].
           ++ cbn in H. injection H as ->. contradiction.
           ++ cbn in H. injection H as <- ->. cbn. f_equal.
              assert (Some r = Some (l1 ++ l2)) as [= ->]; [| reflexivity].
              apply IH. exists l1, l2. split; [reflexivity |].
              split; [| reflexivity]. rewrite not_elem_of_cons in Hni. tauto.
      * split; [discriminate |].
        intros (l1 & l2 & H & Hni & ->). destruct l1 as [| z l1].
        -- cbn in H. injection H as ->. contradiction.
        -- cbn in H. injection H as <- ->.
           assert (None = Some (l1 ++ l2)); [| discriminate].
           apply IH. exists l1, l2. split; [reflexivity |].
           split; [| reflexivity]. rewrite not_elem_of_cons in Hni. tauto.
Qed.

Lemma list_remove_None x l : list_remove x l = None <-> (x ∉ l).
Proof.
  induction l as [| y l IH]; cbn.
  - split; [intros _; apply not_elem_of_nil | reflexivity].
  - rewrite not_elem_of_cons. destruct (Nat.eqb_spec x y) as [-> | Hne].
    + split; [discriminate | tauto].
    + destruct (list_remove x l); cbn.
      * split; [discriminate |]. intros (_ & H). apply IH in H. discriminate.
      * split; [| reflexivity]. intros _. split; [exact Hne | apply IH; reflexivity].
Qed.

(** X2: [disconnect] on a registered connection returns, and all it
    changes is the list of connections, from which it takes the first
    occurrence of the connection: those before and after it stay, in their
    order, a later registration of the same connection included. *)
Theorem disconnect_removes_first websocket (w : World Env)
  (Hin : websocket ∈ active_connections w) :
  exists l1 l2,
    active_connections w = l1 ++ websocket :: l2
    /\ (websocket ∉ l1)
    /\ disconnect L websocket w
       = (relocate w (conversation_history w) (l1 ++ l2) (sent w), Returned tt).
Proof.
  unfold disconnect.
  destruct (list_remove websocket (active_connections w)) as [l |] eqn:E.
  - destruct (proj1 (list_remove_Some _ _ _) E) as (l1 & l2 & H1 & H2 & ->).
    exists l1, l2. split; [exact H1 |]. split; [exact H2 | reflexivity].
  - apply list_remove_None in E. contradiction.
Qed.

(** X3: [disconnect] returns exactly when the connection is registered;
    when it is not, the [ValueError] of [list.remove] comes out and the
    world is as it was. *)
Theorem disconnect_returns_iff websocket (w : World Env) :
  ((exists w', disconnect L websocket w = (w', Returned tt))
   <-> websocket ∈ active_connections w)
  /\ ((websocket ∉ active_connections w)
      <-> disconnect L websocket w
          = (w, Raised (Exn ValueError (describe L RemoveAbsent)))).
Proof.
  unfold disconnect.
  destruct (list_remove websocket (active_connections w)) as [l |] eqn:E.
  - assert (Hin : websocket ∈ active_connections w).
    { destruct (decide (websocket ∈ active_connections w)) as [H | H]; [exact H |].
      apply list_remove_None in H. congruence. }
    split.
    + split; [intros _; exact Hin | intros _; eexists; reflexivity].
    + split; [intros H; contradiction | intros H; discriminate H].
  - pose proof (proj1 (list_remove_None _ _) E) as Hni. split.
    + split; [intros (w' & H); discriminate H | intros H; contradiction].
    + split; [intros _; reflexivity | intros _; exact Hni].
Qed.

(** X4: [connect] followed by [disconnect] of a connection that was not
    registered before leaves the world as it was. *)
Theorem connect_disconnect_round_trip websocket (w : World Env)
  (Hnew : websocket ∉ active_connections w) :
  (let* _ := connect websocket in disconnect L websocket) w = (w, Returned tt).
Proof.
  unfold bind, connect, set_active_connections, disconnect. cbn.
  assert (E : list_remove websocket (active_connections w ++ [websocket])
              = Some (active_connections w)).
  { apply list_remove_Some. exists (active_connections w), [].
    split; [reflexivity |]. split; [exact Hnew | symmetry; apply app_nil_r]. }
  rewrite E. destruct w. reflexivity.
Qed.

Lemma for_connections_sends message connections :
  forall w : World Env,
    for_connections message connections w
    = (relocate w (conversation_history w) (active_connections w)
         (sent w ++ List.map (fun connection => (connection, message)) connections),
       Returned tt).
Proof.
  induction connections as [| c rest IH]; intros w; cbn [for_connections List.map].
  - rewrite app_nil_r. destruct w. reflexivity.
  - unfold bind, send_message. rewrite IH. unfold relocate. cbn.
    rewrite <- app_assoc. reflexivity.
Qed.

(** X5: [broadcast] sends the message once to each registered connection,
    in the order of their registration, after what was sent before, and
    changes nothing else. *)
Theorem broadcast_sends_to_each message (w : World Env) :
  broadcast message w
  = (relocate w (conversation_history w) (active_connections w)
       (sent w
        ++ List.map (fun connection => (connection, message)) (active_connections w)),
     Returned tt).
Proof. unfold broadcast. apply for_connections_sends. Qed.

End ConnectionManager.

Section Deregistration.

#[local] Open Scope list_scope.

Context {Env : Type} (L : Library) (R : Remote Env).

(** C7, as the code has it: deregistration is not idempotent.
    [disconnect] returns exactly when the connection is in the list; on a
    connection that is not in it, one that was already removed included, it
    raises the ValueError of [list.remove] and leaves the world as it was,
    so that a second [disconnect] after a [connect] and a [disconnect]
    raises.  The endpoint calls [disconnect] once, for the connection it
    registered itself, and that call returns: the endpoint of a connection
    that the client closes never ends on that fault. *)
Theorem disconnect_not_idempotent websocket (w : World Env) :
  ((exists w', disconnect L websocket w = (w', Returned tt))
   <-> websocket ∈ active_connections w)
  /\ ((websocket ∉ active_connections w)
      <-> disconnect L websocket w
          = (w, Raised (Exn ValueError (describe L RemoveAbsent))))
  /\ ((websocket ∉ active_connections w)
      -> (let* _ := connect websocket in
          let* _ := disconnect L websocket in
          disconnect L websocket) w
         = (w, Raised (Exn ValueError (describe L RemoveAbsent))))
  /\ (forall frames,
         exists w',
           websocket_endpoint L R websocket frames ClientDisconnect w
           = (w', Returned tt)).
Proof.
  assert (Habsent : (websocket ∉ active_connections w)
                    -> disconnect L websocket w
                       = (w, Raised (Exn ValueError (describe L RemoveAbsent)))).
  { intros Hni. apply list_remove_None in Hni. unfold disconnect. rewrite Hni.
    reflexivity. }
  assert (Hpresent : websocket ∈ active_connections w
                     -> exists w', disconnect L websocket w = (w', Returned tt)).
  { intros Hin. unfold disconnect.
    destruct (list_remove websocket (active_connections w)) as [l |] eqn:E.
    - eexists. reflexivity.
    - apply list_remove_None in E. contradiction. }
  split; [| split; [| split]].
  - split; [| exact Hpresent].
    intros (w' & E).
    destruct (decide (websocket ∈ active_connections w)) as [Hin | Hni]; [exact Hin |].
    rewrite (Habsent Hni) in E. discriminate E.
  - split; [exact Habsent |].
    intros E Hin. destruct (Hpresent Hin) as (w' & E'). rewrite E in E'. discriminate E'.
  - intros Hni.
    assert (E : list_remove websocket (active_connections w ++ [websocket])
                = Some (active_connections w)).
    { apply list_remove_Some. exists (active_connections w), [].
      split; [reflexivity |]. split; [exact Hni | symmetry; apply app_nil_r]. }
    unfold bind at 1, connect, set_active_connections. cbn.
    unfold bind at 1, disconnect at 1. cbn. rewrite E. cbn.
    unfold disconnect. cbn. apply list_remove_None in Hni. rewrite Hni.
    destruct w. reflexivity.
  - intros frames.
    destruct (websocket_endpoint_sends L R websocket frames ClientDisconnect w)
      as (w' & rs & E & _).
    exists w'. exact E.
Qed.

End Deregistration.

(** ** The HTTP routes *)

Section Routes.

Context {Env : Type}.

Lemma authorised_iff (API_KEY x_api_key : option string) :
  authorised API_KEY x_api_key <-> api_key_header x_api_key = API_KEY.
Proof.
  unfold authorised, api_key_header.
  destruct API_KEY as [key |], x_api_key as [[| c k] |]; split;
    try (intros [H1 H2]); try (intros [H | H]); try intros H;
    try discriminate; try congruence; auto.
  - injection H as <-. split; [discriminate | reflexivity].
Qed.

(** X6: a request is let through when its [x-api-key] header is the
    configured key, that key not being empty, and, when no key is
    configured, when it has no such header or an empty one: [GET /] then
    answers "API is working", and [POST /clear-chat] empties the
    conversation history, changes nothing else and reports success. *)
Theorem clear_chat_authorised (API_KEY x_api_key : option string) (w : World Env)
  (Hauthorised : authorised API_KEY x_api_key) :
  read_root API_KEY x_api_key = Ok "API is working"
  /\ clear_chat API_KEY x_api_key w
     = (relocate w [] (active_connections w) (sent w),
        Ok ("Chat history cleared successfully", true)).
Proof.
  apply authorised_iff in Hauthorised.
  unfold read_root, clear_chat, verify_api_key.
  rewrite bool_decide_eq_true_2 by exact Hauthorised. split; reflexivity.
Qed.

(** X7: every other request is refused by both routes with status 403
    and the detail "Invalid API Key", and the world, the conversation
    history included, is left as it was; when the configured key is the
    empty text, that is every request. *)
Theorem routes_refuse_other_keys (API_KEY x_api_key : option string) (w : World Env)
  (Hrefused : ~ authorised API_KEY x_api_key) :
  read_root API_KEY x_api_key = HTTPException 403 "Invalid API Key"
  /\ clear_chat API_KEY x_api_key w = (w, HTTPException 403 "Invalid API Key").
Proof.
  rewrite authorised_iff in Hrefused.
  unfold read_root, clear_chat, verify_api_key.
  rewrite bool_decide_eq_false_2 by exact Hrefused. split; reflexivity.
Qed.

End Routes.

(** ** The message protocol *)

Section Protocol.

Context (L : Library).

(** X8: validation reads the five fields of the model and nothing else:
    a member under any other name does not change its result. *)
Theorem validate_ignores_other_members (fields : gmap string json) k v
  (Hother : k ∉ ["session_id"; "message"; "user_id"; "timestamp"; "message_type"]) :
  validate (<[k := v]> fields) = validate fields.
Proof.
  assert (H : forall k', k' ∈ ["session_id"; "message"; "user_id"; "timestamp";
                                "message_type"] ->
                         <[k := v]> fields !! k' = fields !! k').
  { intros k' Hk'. apply lookup_insert_ne. intros ->. contradiction. }
  unfold validate, required_str, optional_str, optional_str_or_none.
  rewrite !H by (repeat first [apply list_elem_of_here | apply list_elem_of_further]).
  reflexivity.
Qed.

(** X9: what a validated message holds: [session_id] and [message] are
    string members of the object; [user_id] and [message_type] are string
    members or, when the object has no such member, "user" and "chat";
    [timestamp] is a string member or, when the member is absent or null,
    [None]. *)
Theorem validate_reads_fields (fields : gmap string json) m
  (Hvalid : validate fields = Some m) :
  fields !! "session_id" = Some (JString (ChatMessage.session_id m))
  /\ fields !! "message" = Some (JString (ChatMessage.message m))
  /\ (fields !! "user_id" = Some (JString (ChatMessage.user_id m))
      \/ fields !! "user_id" = None /\ ChatMessage.user_id m = "user")
  /\ (fields !! "message_type" = Some (JString (ChatMessage.message_type m))
      \/ fields !! "message_type" = None /\ ChatMessage.message_type m = "chat")
  /\ match ChatMessage.timestamp m with
     | Some t => fields !! "timestamp" = Some (JString t)
     | None => fields !! "timestamp" = None \/ fields !! "timestamp" = Some JNull
     end.
Proof.
  revert Hvalid.
  unfold validate, required_str, optional_str, optional_str_or_none.
  destruct (fields !! "session_id") as [[] |]; try discriminate.
  destruct (fields !! "message") as [[] |]; try discriminate.
  destruct (fields !! "user_id") as [[] |]; try discriminate;
    destruct (fields !! "timestamp") as [[] |]; try discriminate;
    destruct (fields !! "message_type") as [[] |]; try discriminate;
    intros [= <-]; cbn; auto 10.
Qed.

(** X10: the payload of the "Clear Chat" button of the front end is a
    valid message and a clear command, whatever the session id and the time
    are. *)
Theorem clear_payload_clears session_id now :
  exists m,
    new_ChatMessage L (JObject (clear_payload session_id now)) = Returned m
    /\ ChatMessage.session_id m = session_id
    /\ ChatMessage.user_id m = "streamlit_user"
    /\ ChatMessage.timestamp m = Some now
    /\ is_clear L m = true.
Proof.
  eexists. unfold new_ChatMessage, validate, clear_payload,
    required_str, optional_str, optional_str_or_none.
  repeat (first [rewrite lookup_insert_eq
                | rewrite lookup_insert_ne by discriminate
                | rewrite lookup_singleton_eq]).
  cbn. auto.
Qed.

Lemma message_payload_valid session_id prompt now :
  new_ChatMessage L (JObject (message_payload session_id prompt now))
  = Returned {| ChatMessage.session_id := session_id;
                ChatMessage.message := prompt;
                ChatMessage.user_id := "streamlit_user";
                ChatMessage.timestamp := Some now;
                ChatMessage.message_type := "chat" |}.
Proof.
  unfold new_ChatMessage, validate, message_payload,
    required_str, optional_str, optional_str_or_none.
  repeat (first [rewrite lookup_insert_eq
                | rewrite lookup_insert_ne by discriminate
                | rewrite lookup_singleton_eq]).
  reflexivity.
Qed.

End Protocol.

Section FrontEnd.

Context {Env : Type} (L : Library) (R : Remote Env).

(** X11: a prompt of the front end goes to the agent as it was typed.
    On the frame whose JSON is the payload the front end makes for a
    prompt that is not a clear command, the turn gives the prompt
    unchanged to the agent, in the world in which the frame arrives, and
    sends the agent's reply under the session id of the front end, with
    success true; the conversation history is not touched. *)
Theorem message_payload_carries_prompt websocket server_id data session_id prompt now
  (w : World Env)
  (Hjson : json_loads L data = inl (JObject (message_payload session_id prompt now)))
  (Hchat : str_strip L (str_lower L prompt) <> "/clear") :
  exists w1 reply,
    process_chat_message L R prompt w = (w1, Returned reply)
    /\ serve_frame L R websocket server_id data w
       = (answered R w1 (conversation_history w) websocket
            (fun timestamp =>
               {| ChatResponse.session_id := session_id;
                  ChatResponse.message := reply;
                  ChatResponse.sender := "agent";
                  ChatResponse.timestamp := timestamp;
                  ChatResponse.message_type := "response";
                  ChatResponse.success := true;
                  ChatResponse.error := None |}),
          Returned tt).
Proof.
  pose proof (message_payload_valid L session_id prompt now) as Hvalid.
  match type of Hvalid with
  | _ = Returned ?m =>
      assert (Hclear : is_clear L m = false)
        by (unfold is_clear; cbn; apply String.eqb_neq; exact Hchat);
      destruct (serve_frame_chat L R websocket server_id data w _ m Hjson Hvalid Hclear)
        as (w1 & reply & E & Es)
  end.
  exists w1, reply. split; [exact E | exact Es].
Qed.

End FrontEnd.

(** ** The turn of the agent *)

Section AgentTurns.

#[local] Open Scope list_scope.

Context {Env : Type} (L : Library) (R : Remote Env).

Lemma bind_print {B} p (k : unit -> M Env B) (w : World Env) :
  bind (print p) k w = k tt (print p w).1.
Proof. reflexivity. Qed.

Lemma for_parts_no_call ps :
  Forall (fun part => function_call part = None) ps ->
  forall w : World Env,
  exists w1, for_parts L R ps w = (w1, Returned None) /\ env w1 = env w.
Proof.
  induction 1 as [| part rest Hnone _ IH]; intros w; cbn [for_parts].
  - exists w. split; reflexivity.
  - rewrite Hnone. unfold bind at 1, print at 1. cbn.
    match goal with |- context [for_parts L R rest ?w0] =>
      destruct (IH w0) as (w1 & E & Henv) end.
    exists w1. split; [exact E | exact Henv].
Qed.

(** X12: when the response of the model carries no function call, the
    turn returns the text of the response as it is, having called the model
    once and nothing else of the outside world. *)
Theorem plain_reply_verbatim message (w : World Env) env1 response t
  (Hmodel : generate_content R message (env w) = (env1, Returned response))
  (Hplain : no_function_call response)
  (Htext : text response = Returned t) :
  exists w1,
    run_quotation_agent L R message w = (w1, Returned t) /\ env w1 = env1.
Proof.
  unfold run_quotation_agent, try_except. unfold bind at 1.
  rewrite (remote_call_value _ _ _ _ Hmodel).
  unfold bind at 1, print at 1. cbn.
  unfold no_function_call in Hplain.
  destruct (candidates response) as [| candidate others].
  - unfold bind, ret. cbn. rewrite Htext. cbn. eauto.
  - destruct (content candidate) as [c |].
    + unfold bind, print. cbn.
      match goal with |- context [for_parts L R (parts c) ?w0] =>
        destruct (for_parts_no_call _ Hplain w0) as (w1 & E & Henv) end.
      rewrite E. cbn. rewrite Htext. cbn. exists w1. split; [reflexivity | exact Henv].
    + unfold bind, print. cbn. rewrite Htext. cbn. eauto.
Qed.

Lemma bind_kwargs_raises function params required (args : gmap string pyval) :
  (exists k, k ∈ keys args /\ k ∉ params)
  \/ (exists k, k ∈ required /\ args !! k = None) ->
  exists f, bind_kwargs L function params required args = fault L f
            /\ fault_class f = TypeError.
Proof.
  intros Hbad. unfold bind_kwargs.
  destruct (List.filter _ (keys args)) as [| u us] eqn:E1.
  - destruct Hbad as [(k & Hk & Hp) | (k & Hk & Ha)].
    + exfalso. assert (Hin : In k (List.filter
                  (fun k => negb (bool_decide (k ∈ params))) (keys args))).
      { apply List.filter_In. split; [apply list_elem_of_In; exact Hk |].
        rewrite bool_decide_eq_false_2 by exact Hp. reflexivity. }
      rewrite E1 in Hin. exact Hin.
    + destruct (List.filter _ required) as [| m ms] eqn:E2.
      * exfalso. assert (Hin : In k (List.filter
                    (fun k => negb (bool_decide (is_Some (args !! k)))) required)).
        { apply List.filter_In. split; [apply list_elem_of_In; exact Hk |].
          rewrite bool_decide_eq_false_2; [reflexivity |].
          rewrite Ha. intros [x Hx]. discriminate. }
        rewrite E2 in Hin. exact Hin.
      * eexists. split; reflexivity.
  - eexists. split; reflexivity.
Qed.

(** X13: when the first part of the response calls a registered tool
    with an argument that is not among its parameters, or without one of its
    required parameters, the tool is not run: the turn returns the apology
    with the text of the [TypeError], and the outside world has only been
    asked for the response of the model. *)
Theorem bad_arguments_never_reach_provider message (w : World Env) env1 response
  candidate others part rest fc params required
  (Hmodel : generate_content R message (env w) = (env1, Returned response))
  (Hcandidates : candidates response = candidate :: others)
  (Hcontent : content candidate = Some {| parts := part :: rest |})
  (Hcall : function_call part = Some fc)
  (Hsignature : signature (name fc) = Some (params, required))
  (Hbad : (exists k, k ∈ keys (args fc) /\ k ∉ params)
          \/ (exists k, k ∈ required /\ args fc !! k = None)) :
  exists w1 f,
    run_quotation_agent L R message w
    = (w1, Returned ("I'm sorry, I encountered an error while processing your request: "
                     +:+ describe L f))
    /\ fault_class f = TypeError
    /\ env w1 = env1.
Proof.
  unfold run_quotation_agent, try_except. unfold bind at 1.
  rewrite (remote_call_value _ _ _ _ Hmodel).
  unfold bind at 1, print at 1. cbn. rewrite Hcandidates.
  unfold bind at 1. unfold bind at 1, print at 1. cbn. rewrite Hcontent.
  unfold bind at 1, print at 1. cbn [parts for_parts]. rewrite Hcall.
  assert (Hraises : forall function,
             exists f, bind_kwargs L function params required (args fc) = fault L f
                       /\ fault_class f = TypeError)
    by (intros function; apply bind_kwargs_raises; exact Hbad).
  unfold signature in Hsignature.
  unfold call_create_customer, call_create_invoice, call_list_invoices.
  destruct (String.eqb (name fc) "create_customer").
  - injection Hsignature as <- <-.
    destruct (Hraises "create_customer") as (f & Hf & Hclass).
    unfold bind, print, lift. cbn. rewrite Hf. cbn.
    eexists _, f. split; [reflexivity |]. split; [exact Hclass | reflexivity].
  - destruct (String.eqb (name fc) "create_invoice").
    + injection Hsignature as <- <-.
      destruct (Hraises "create_invoice") as (f & Hf & Hclass).
      unfold bind, print, lift. cbn. rewrite Hf. cbn.
      eexists _, f. split; [reflexivity |]. split; [exact Hclass | reflexivity].
    + destruct (String.eqb (name fc) "list_invoices"); [| discriminate].
      injection Hsignature as <- <-.
      destruct (Hraises "list_invoices") as (f & Hf & Hclass).
      unfold bind, print, lift. cbn. rewrite Hf. cbn.
      eexists _, f. split; [reflexivity |]. split; [exact Hclass | reflexivity].
Qed.

(** X14: the loop over the parts stops at the first call of a registered
    tool: the parts that follow it are neither printed nor run, whatever
    they are. *)
Theorem first_registered_call_wins part rest rest' fc (w : World Env)
  (Hcall : function_call part = Some fc)
  (Hregistered : signature (name fc) <> None) :
  for_parts L R (part :: rest) w = for_parts L R (part :: rest') w.
Proof.
  cbn [for_parts]. rewrite Hcall. unfold signature in Hregistered.
  repeat (rewrite !bind_print; cbv beta).
  destruct (String.eqb (name fc) "create_customer"); [reflexivity |].
  destruct (String.eqb (name fc) "create_invoice"); [reflexivity |].
  destruct (String.eqb (name fc) "list_invoices"); [reflexivity | contradiction].
Qed.

(** X15: [run_quotation_agent] never raises, so the [except] branch of
    [process_chat_message] is never taken: the function returns what the
    agent returns and leaves the world as the agent leaves it. *)
Theorem process_chat_message_is_agent message (w : World Env) :
  process_chat_message L R message w = run_quotation_agent L R message w.
Proof.
  destruct (total_run_quotation_agent L R message w) as (w' & s & E).
  unfold process_chat_message, try_except, bind. rewrite E. reflexivity.
Qed.

End AgentTurns.

(** ** The action handlers *)

Lemma split_head_before sep a b :
  ~ In sep (list_ascii_of_string a) ->
  Text.split_head sep (a +:+ String sep b) = a.
Proof.
  induction a as [| c a IH]; intros Hni.
  - unfold String.app. cbn -[Ascii.eqb]. rewrite Ascii.eqb_refl. reflexivity.
  - unfold String.app. cbn -[Ascii.eqb] in *. fold String.app.
    destruct (Ascii.eqb_spec c sep) as [-> | Hne]; [tauto |].
    rewrite IH by tauto. reflexivity.
Qed.

(** Integers below [2^53] are binary64 numbers: [float] is exact on them and
    [int] gives them back. *)
Lemma trunc_of_ratio_1 n :
  Z.abs n < 2 ^ 53 ->
  exists m e, Float.of_ratio n 1 = Some (Finite m e) /\ Float.trunc m e = n.
Proof.
  intros Hn. unfold Float.of_ratio.
  destruct (n =? 0) eqn:E0.
  - apply Z.eqb_eq in E0. subst n. exists 0, 0. split; reflexivity.
  - apply Z.eqb_neq in E0.
    assert (Ha : 0 < Z.abs n) by lia.
    set (a := Z.abs n) in *.
    assert (Hl : 0 <= Z.log2 a < 53).
    { split; [apply Z.log2_nonneg | apply Z.log2_lt_pow2; lia]. }
    pose proof (Z.log2_spec a Ha) as Hspec.
    assert (He : Float.exponent a 1 = Z.log2 a - 52).
    { unfold Float.exponent. change (Z.log2 1) with 0. rewrite Z.sub_0_r.
      unfold Float.scaled.
      destruct (0 <=? Z.log2 a - 52) eqn:E.
      - apply Z.leb_le in E. replace (Z.log2 a) with 52 in * by lia.
        change (52 - 52) with 0. change (1 * 2 ^ 0) with 1.
        destruct (2 ^ 52 * 1 <=? a) eqn:E'; [lia | apply Z.leb_gt in E'; lia].
      - apply Z.leb_gt in E.
        replace (- (Z.log2 a - 52)) with (52 - Z.log2 a) by lia.
        assert (Hp : 2 ^ 52 = 2 ^ Z.log2 a * 2 ^ (52 - Z.log2 a)).
        { rewrite <- Z.pow_add_r by lia. f_equal. lia. }
        assert (Hk : 0 < 2 ^ (52 - Z.log2 a)) by (apply Z.pow_pos_nonneg; lia).
        destruct (2 ^ 52 * 1 <=? a * 2 ^ (52 - Z.log2 a)) eqn:E';
          [lia | apply Z.leb_gt in E'; nia]. }
    rewrite He. unfold Float.scaled.
    destruct (0 <=? Z.log2 a - 52) eqn:E.
    + apply Z.leb_le in E. replace (Z.log2 a) with 52 in * by lia.
      change (52 - 52) with 0. change (1 * 2 ^ 0) with 1.
      rewrite (round_half_even_unique a 1 a) by lia.
      destruct (2 ^ 1024 <=? a * 2 ^ 0) eqn:E'; [apply Z.leb_le in E'; lia |].
      exists (Z.sgn n * a), 0. split; [reflexivity |].
      unfold Float.trunc. cbn. unfold a. lia.
    + apply Z.leb_gt in E.
      replace (- (Z.log2 a - 52)) with (52 - Z.log2 a) by lia.
      set (k := 2 ^ (52 - Z.log2 a)).
      assert (Hk : 0 < k) by (apply Z.pow_pos_nonneg; lia).
      rewrite (round_half_even_unique (a * k) 1 (a * k)) by lia.
      rewrite (Z.pow_neg_r 2 (Z.log2 a - 52)) by lia. rewrite Z.mul_0_r.
      change (2 ^ 1024 <=? 0) with false. cbv iota.
      exists (Z.sgn n * (a * k)), (Z.log2 a - 52). split; [reflexivity |].
      unfold Float.trunc.
      destruct (0 <=? Z.log2 a - 52) eqn:E2; [apply Z.leb_le in E2; lia |].
      replace (- (Z.log2 a - 52)) with (52 - Z.log2 a) by lia. fold k.
      replace (Z.sgn n * (a * k)) with (n * k) by (unfold a; lia).
      apply Z.quot_mul. lia.
Qed.

Section HandlerProperties.

#[local] Open Scope list_scope.

Context {Env : Type} (L : Library) (R : Remote Env).

(** X16: without a name, [create_customer] gives the provider the part
    of the email before its first "@" as the name, and without a
    description the fixed one; the text it returns names the new customer
    and the email. *)
Theorem create_customer_default_name local domain name description (w : World Env)
  env1 customer
  (Hname : truthy name = false)
  (Hlocal : ~ In "@"%char (list_ascii_of_string local))
  (Hcreate : stripe R (Customer_create (VStr (local +:+ "@" +:+ domain)) (VStr local)
                         (py_or description (VStr "Customer created via AI agent")))
               (env w)
             = (env1, Returned customer)) :
  create_customer L R (VStr (local +:+ "@" +:+ domain)) name description w
  = (set_env w env1,
     Returned ("Customer " +:+ Customer.id customer +:+ " created successfully for "
               +:+ local +:+ "@" +:+ domain)).
Proof.
  unfold create_customer, create_customer_try, try_except.
  rewrite Hname. unfold bind at 1. unfold bind at 1. cbn [lift str_receiver].
  unfold ret at 1 2.
  change ("@" +:+ domain) with (String "@"%char domain) in *.
  rewrite (split_head_before "@"%char local domain Hlocal).
  unfold bind, call. rewrite (remote_call_value _ _ _ _ Hcreate). reflexivity.
Qed.

(** X17: [list_invoices] with no customer id, an empty one or any other
    falsy value asks the provider for the invoices of all customers, and
    reports how many there are. *)
Theorem list_invoices_without_customer customer_id (w : World Env) env1 invoices
  (Hfalsy : truthy customer_id = false)
  (Hlist : stripe R (Invoice_list None) (env w) = (env1, Returned invoices)) :
  list_invoices R customer_id w
  = (set_env w env1,
     Returned ("Found " +:+ Text.of_Z (Z.of_nat (length invoices)) +:+ " invoices.")).
Proof.
  unfold list_invoices, list_invoices_try, try_except. rewrite Hfalsy.
  unfold bind, call. rewrite (remote_call_value _ _ _ _ Hlist). reflexivity.
Qed.

(** X18: [int(float(amount))] is the amount itself for an integer
    amount below [2^53] in absolute value. *)
Theorem amount_of_int_unchanged n (Hn : Z.abs n < 2 ^ 53) :
  exists x, py_float L (VInt n) = Returned x /\ py_int L x = Returned n.
Proof.
  destruct (trunc_of_ratio_1 n Hn) as (m & e & Hr & Ht).
  exists (Finite m e). cbn. rewrite Hr, Ht. split; reflexivity.
Qed.

(** X19: when the amount cannot be converted, [create_invoice] returns
    the error text without having called the provider: the world is as it
    was. *)
Theorem create_invoice_bad_amount customer_id amount currency description
  (w : World Env) e
  (Hamount : py_float L amount = Raised e
             \/ exists x, py_float L amount = Returned x /\ py_int L x = Raised e) :
  create_invoice L R customer_id amount currency description w
  = (w, Returned ("Error creating invoice: " +:+ str_exn e)).
Proof.
  unfold create_invoice, create_invoice_try, try_except.
  destruct Hamount as [Hf | (x & Hf & Hi)].
  - unfold bind at 1. rewrite Hf. reflexivity.
  - unfold bind at 1. rewrite Hf. cbn [lift]. unfold bind at 1. rewrite Hi. reflexivity.
Qed.

(** X20: a demo customer made for an id the provider does not know stays
    with the provider when a later step fails: with a currency that is not a
    string, [create_invoice] returns the text of the [AttributeError], and
    the provider is left as the creation of the demo customer left it, no
    invoice made. *)
Theorem demo_customer_outlives_failure customer_id amount currency description
  (w : World Env) x n env1 e env2 demo
  (Hfloat : py_float L amount = Returned x)
  (Hint : py_int L x = Returned n)
  (Hretrieve : stripe R (Customer_retrieve customer_id) (env w) = (env1, Raised e))
  (Hclass : is_InvalidRequestError e = true)
  (Hdemo : stripe R (Customer_create (VStr (py_str L customer_id +:+ "@demo.com"))
                       (VStr ("Demo Customer " +:+ py_str L customer_id))
                       (VStr "Demo customer created by AI agent")) env1
           = (env2, Returned demo))
  (Hcurrency : forall s, currency <> VStr s) :
  create_invoice L R customer_id amount currency description w
  = (set_env w env2,
     Returned ("Error creating invoice: " +:+ describe L (NoAttribute currency "lower"))).
Proof.
  unfold create_invoice, create_invoice_try, try_except.
  unfold bind at 1. rewrite Hfloat. cbn [lift].
  unfold bind at 1. rewrite Hint. cbn [lift].
  unfold bind at 1.
  assert (Hcheck : check_customer L R customer_id w
                   = (set_env w env2, Returned (VStr (Customer.id demo)))).
  { unfold check_customer, try_except_class, try_except, bind at 1, call.
    rewrite (remote_call_raised _ _ _ _ Hretrieve). rewrite Hclass.
    unfold bind. rewrite (remote_call_value _ (set_env w env1) _ _ Hdemo). reflexivity. }
  rewrite Hcheck. unfold bind at 1.
  destruct currency; try (exfalso; eapply Hcurrency; reflexivity); reflexivity.
Qed.

End HandlerProperties.

(** ** The endpoint over a whole connection *)

Section Connections.

#[local] Open Scope list_scope.

Context {Env : Type} (L : Library) (R : Remote Env).

Lemma conversation_history_answered (w1 : World Env) history websocket response :
  conversation_history (answered R w1 history websocket response) = history.
Proof.
  unfold answered. destruct (datetime_now_isoformat R (env w1)). reflexivity.
Qed.

Lemma serve_frame_history websocket session_id data (w : World Env) :
  conversation_history (serve_frame L R websocket session_id data w).1
  = if is_clear_frame L data then [] else conversation_history w.
Proof.
  unfold is_clear_frame.
  destruct (json_loads L data) as [v | class] eqn:Hj.
  - destruct (new_ChatMessage L v) as [m | e] eqn:Hm.
    + destruct (is_clear L m) eqn:Hc.
      * rewrite (serve_frame_clear L R _ _ _ _ _ _ Hj Hm Hc). cbn.
        apply conversation_history_answered.
      * destruct (serve_frame_chat L R websocket session_id _ w _ _ Hj Hm Hc)
          as (w1 & s & _ & ->). cbn. apply conversation_history_answered.
    + rewrite (serve_frame_invalid L R _ _ _ _ _ _ Hj Hm). cbn.
      apply conversation_history_answered.
  - assert (Hother : class <> JSONDecodeError ->
              conversation_history (serve_frame L R websocket session_id data w).1
              = conversation_history w).
    { intros Hc. rewrite (serve_frame_failed L R _ _ _ _ _ Hj Hc). cbn.
      apply conversation_history_answered. }
    destruct class; try (apply Hother; discriminate).
    destruct (serve_frame_plain L R websocket session_id _ w Hj) as (w1 & s & _ & ->).
    cbn. apply conversation_history_answered.
Qed.

(** The endpoint up to its loop: the connection is registered last. *)
Lemma opened_returns websocket (w : World Env) :
  exists w1 session_id,
    opened R websocket w = (w1, Returned session_id)
    /\ session_id = (uuid4 R (env w)).2
    /\ active_connections w1 = active_connections w ++ [websocket]
    /\ conversation_history w1 = conversation_history w.
Proof.
  unfold opened, bind, connect, set_active_connections, remote, print. cbn.
  destruct (uuid4 R (env w)) as [env1 session_id]. cbn.
  eexists _, _. split; [reflexivity |]. cbn. auto.
Qed.

(** The endpoint from the [receive_text] that raises: on a disconnect the
    connection is removed from the list, if it is there. *)
Lemma closed_leaves websocket session_id closing (w : World Env) :
  conversation_history (closed L websocket session_id closing w).1
  = conversation_history w
  /\ active_connections (closed L websocket session_id closing w).1
     = match closing with
       | ClientDisconnect =>
           default (active_connections w) (list_remove websocket (active_connections w))
       | BinaryFrame => active_connections w
       end.
Proof.
  unfold closed, try_except_class, try_except, bind, lift.
  destruct closing; cbn; [| auto].
  unfold disconnect.
  destruct (list_remove websocket (active_connections w)); cbn; auto.
Qed.

(** A connection served alone is the run of its events. *)
Lemma serve_then_closed websocket session_id frames closing :
  forall w : World Env,
    (try_except_class (serve L R websocket session_id frames closing)
       is_WebSocketDisconnect
       (fun _ =>
          let* _ := disconnect L websocket in
          print (PrintLine ("WebSocket connection closed for session: " +:+ session_id)))
       w).1
    = (closed L websocket session_id closing
         (fold_left (fun w data => (serve_frame L R websocket session_id data w).1)
            frames w)).1.
Proof.
  induction frames as [| data rest IH]; intros w; cbn [serve fold_left].
  - reflexivity.
  - destruct (serve_frame_sends L R websocket session_id data w) as (w1 & r & E & _).
    rewrite <- IH. unfold try_except_class, try_except, bind. rewrite E. reflexivity.
Qed.

Lemma run_received API_KEY websocket session_id frames :
  forall s : @System Env,
    coroutines s !! websocket = Some session_id ->
    run L R API_KEY (List.map (Received websocket) frames) s
    = {| world := fold_left
                    (fun w data => (serve_frame L R websocket session_id data w).1)
                    frames (world s);
         coroutines := coroutines s |}.
Proof.
  induction frames as [| data rest IH]; intros s Hs; cbn [List.map fold_left run].
  - destruct s. reflexivity.
  - unfold run in IH. cbn [step]. rewrite Hs.
    destruct (serve_frame_sends L R websocket session_id data (world s))
      as (w1 & r & E & _).
    rewrite E. rewrite IH by exact Hs. reflexivity.
Qed.

Lemma websocket_endpoint_opened websocket frames closing (w : World Env) :
  websocket_endpoint L R websocket frames closing w
  = bind (opened R websocket)
      (fun session_id =>
         try_except_class (serve L R websocket session_id frames closing)
           is_WebSocketDisconnect
           (fun _ =>
              let* _ := disconnect L websocket in
              print (PrintLine ("WebSocket connection closed for session: "
                                +:+ session_id)))) w.
Proof.
  unfold websocket_endpoint, opened, bind, connect, set_active_connections, remote, print.
  cbn. destruct (uuid4 R (env w)). reflexivity.
Qed.

Lemma run_connection API_KEY websocket frames closing (s : @System Env) :
  world (run L R API_KEY (connection websocket frames closing) s)
  = (websocket_endpoint L R websocket frames closing (world s)).1.
Proof.
  rewrite websocket_endpoint_opened.
  unfold connection, run. cbn [fold_left step].
  destruct (opened_returns websocket (world s)) as (w1 & session_id & E & _).
  unfold bind. rewrite E. rewrite fold_left_app.
  pose proof (run_received API_KEY websocket session_id frames
                {| world := w1;
                   coroutines := <[websocket := session_id]> (coroutines s) |}
                (lookup_insert_eq _ _ _)) as Hrun.
  unfold run in Hrun. rewrite Hrun. cbn [fold_left step world coroutines].
  rewrite lookup_insert_eq. cbn [world]. symmetry. apply serve_then_closed.
Qed.

(** What one event does to the conversation history and to the list of
    connections. *)
Lemma step_leaves API_KEY event (s : @System Env) :
  (conversation_history (world (step L R API_KEY event s))
   = conversation_history (world s)
   \/ conversation_history (world (step L R API_KEY event s)) = []
      /\ clears L API_KEY event = true)
  /\ active_connections (world (step L R API_KEY event s))
     = match event with
       | Opened websocket => active_connections (world s) ++ [websocket]
       | Closed websocket ClientDisconnect =>
           match coroutines s !! websocket with
           | Some _ =>
               default (active_connections (world s))
                 (list_remove websocket (active_connections (world s)))
           | None => active_connections (world s)
           end
       | _ => active_connections (world s)
       end.
Proof.
  destruct event as [websocket | websocket data | websocket closing | x_api_key];
    cbn [step clears].
  - destruct (opened_returns websocket (world s)) as (w1 & sid & -> & _ & Ha & Hh).
    cbn. auto.
  - destruct (coroutines s !! websocket) as [sid |]; [| auto].
    destruct (serve_frame_sends L R websocket sid data (world s))
      as (w1 & r & E & _ & Ha & _).
    pose proof (serve_frame_history websocket sid data (world s)) as Hh.
    rewrite E in Hh |- *. cbn in *. split; [| exact Ha].
    destruct (is_clear_frame L data); auto.
  - destruct (coroutines s !! websocket) as [sid |].
    + destruct (closed_leaves websocket sid closing (world s)) as (Hh & Ha).
      cbn. split; [auto |]. rewrite Ha. destruct closing; reflexivity.
    + split; [auto |]. destruct closing; reflexivity.
  - unfold clear_chat, verify_api_key.
    destruct (bool_decide (api_key_header x_api_key = API_KEY)); cbn; auto.
Qed.

(** X21: nothing in the program adds to the conversation history.
    Whatever the connections and the requests are, and in whatever order
    their events are served, the history is in the end as it was at the
    start, or it is empty and one of the events was a frame with a clear
    command or a request of [POST /clear-chat] with the key. *)
Theorem history_only_cleared API_KEY events (s : @System Env) :
  conversation_history (world (run L R API_KEY events s))
  = conversation_history (world s)
  \/ conversation_history (world (run L R API_KEY events s)) = []
     /\ Exists (fun event => clears L API_KEY event = true) events.
Proof.
  revert s. induction events as [| event rest IH]; intros s; [left; reflexivity |].
  change (run L R API_KEY (event :: rest) s)
    with (run L R API_KEY rest (step L R API_KEY event s)).
  destruct (step_leaves API_KEY event s) as (Hstep & _).
  destruct (IH (step L R API_KEY event s)) as [Hrest | (Hrest & Hex)].
  - rewrite Hrest. destruct Hstep as [-> | (-> & Hc)]; [left; reflexivity |].
    right. split; [reflexivity |]. apply Exists_cons_hd. exact Hc.
  - right. split; [exact Hrest |]. apply Exists_cons_tl. exact Hex.
Qed.

Lemma list_remove_beside c websocket l1 l2 :
  c <> websocket ->
  match list_remove c (l1 ++ l2) with
  | Some r =>
      exists r1 r2,
        r = r1 ++ r2
        /\ list_remove c (l1 ++ websocket :: l2) = Some (r1 ++ websocket :: r2)
        /\ ((websocket ∉ l1) -> websocket ∉ r1)
  | None => list_remove c (l1 ++ websocket :: l2) = None
  end.
Proof.
  intros Hne. induction l1 as [| y l1 IH]; cbn [app list_remove].
  - destruct (Nat.eqb_spec c websocket) as [-> | _]; [contradiction |].
    destruct (list_remove c l2) as [r |]; cbn; [| reflexivity].
    exists [], r. auto.
  - destruct (Nat.eqb c y).
    + exists l1, l2. split; [reflexivity |]. split; [reflexivity |].
      intros H. rewrite not_elem_of_cons in H. tauto.
    + destruct (list_remove c (l1 ++ l2)) as [r |]; cbn.
      * destruct IH as (r1 & r2 & -> & -> & Hni). cbn.
        exists (y :: r1), r2. split; [reflexivity |]. split; [reflexivity |].
        intros H. rewrite not_elem_of_cons in H |- *. tauto.
      * rewrite IH. reflexivity.
Qed.

(** The list of connections with and without the connection of
    [websocket], which is open in [s'] and has no endpoint in [s]. *)
Lemma step_beside API_KEY websocket event (s s' : @System Env) l1 l2 :
  opens_or_closes websocket event = false ->
  (forall c, c <> websocket ->
             is_Some (coroutines s' !! c) <-> is_Some (coroutines s !! c)) ->
  is_Some (coroutines s' !! websocket) ->
  active_connections (world s) = l1 ++ l2 ->
  active_connections (world s') = l1 ++ websocket :: l2 ->
  websocket ∉ l1 ->
  (forall c, c <> websocket ->
             is_Some (coroutines (step L R API_KEY event s') !! c)
             <-> is_Some (coroutines (step L R API_KEY event s) !! c))
  /\ is_Some (coroutines (step L R API_KEY event s') !! websocket)
  /\ exists r1 r2,
      active_connections (world (step L R API_KEY event s)) = r1 ++ r2
      /\ active_connections (world (step L R API_KEY event s'))
         = r1 ++ websocket :: r2
      /\ websocket ∉ r1.
Proof.
  intros He Hdom Hlive Ha Ha' Hni.
  destruct (step_leaves API_KEY event s) as (_ & Hs).
  destruct (step_leaves API_KEY event s') as (_ & Hs').
  rewrite Hs, Hs'. clear Hs Hs'.
  destruct event as [c | c data | c closing | x_api_key]; cbn in He.
  - apply Nat.eqb_neq in He. cbn [step].
    destruct (opened_returns c (world s)) as (w1 & sid & -> & _).
    destruct (opened_returns c (world s')) as (w1' & sid' & -> & _).
    cbn [coroutines]. split; [| split].
    + intros c' Hc'. destruct (decide (c' = c)) as [-> | Hcc].
      * rewrite !lookup_insert_eq. split; eauto.
      * rewrite !lookup_insert_ne by congruence. apply Hdom. exact Hc'.
    + rewrite lookup_insert_ne by congruence. exact Hlive.
    + exists l1, (l2 ++ [c]). rewrite Ha, Ha', <- !app_assoc. auto.
  - assert (Hkeep : forall t : @System Env,
               coroutines (step L R API_KEY (Received c data) t) = coroutines t).
    { intros t. cbn [step]. destruct (coroutines t !! c) as [sid |]; [| reflexivity].
      destruct (serve_frame_sends L R c sid data (world t)) as (w1 & r & -> & _).
      reflexivity. }
    rewrite !Hkeep. split; [exact Hdom |]. split; [exact Hlive |].
    exists l1, l2. auto.
  - apply Nat.eqb_neq in He.
    assert (Hgone : forall t : @System Env,
               forall c', is_Some (coroutines (step L R API_KEY (Closed c closing) t) !! c')
                          <-> c' <> c /\ is_Some (coroutines t !! c')).
    { intros t c'. cbn [step]. destruct (coroutines t !! c) as [sid |] eqn:E; cbn.
      - rewrite lookup_delete_is_Some. intuition congruence.
      - split; [| tauto]. intros H. split; [| exact H].
        intros ->. rewrite E in H. destruct H. discriminate. }
    split; [| split].
    + intros c' Hc'. rewrite !Hgone. specialize (Hdom c' Hc'). tauto.
    + rewrite Hgone. split; [congruence | exact Hlive].
    + pose proof (Hdom c He) as Hc.
      destruct closing; [| exists l1, l2; auto].
      destruct (coroutines s !! c) as [sid |], (coroutines s' !! c) as [sid' |];
        try (exfalso; destruct Hc as [H1 H2];
             first [destruct (H1 ltac:(eauto)); discriminate
                   | destruct (H2 ltac:(eauto)); discriminate]);
        [| exists l1, l2; auto].
      rewrite Ha, Ha'.
      pose proof (list_remove_beside c websocket l1 l2 He) as Hr.
      destruct (list_remove c (l1 ++ l2)) as [r |].
      * destruct Hr as (r1 & r2 & -> & -> & Hni'). cbn. exists r1, r2. auto.
      * rewrite Hr. cbn. exists l1, l2. auto.
  - cbn [step coroutines]. split; [exact Hdom |]. split; [exact Hlive |].
    exists l1, l2. auto.
Qed.

Lemma run_beside API_KEY websocket events :
  Forall (fun event => opens_or_closes websocket event = false) events ->
  forall (s s' : @System Env) l1 l2,
    (forall c, c <> websocket ->
               is_Some (coroutines s' !! c) <-> is_Some (coroutines s !! c)) ->
    is_Some (coroutines s' !! websocket) ->
    active_connections (world s) = l1 ++ l2 ->
    active_connections (world s') = l1 ++ websocket :: l2 ->
    websocket ∉ l1 ->
    is_Some (coroutines (run L R API_KEY events s') !! websocket)
    /\ exists r1 r2,
        active_connections (world (run L R API_KEY events s)) = r1 ++ r2
        /\ active_connections (world (run L R API_KEY events s'))
           = r1 ++ websocket :: r2
        /\ websocket ∉ r1.
Proof.
  induction 1 as [| event rest He _ IH]; intros s s' l1 l2 Hdom Hlive Ha Ha' Hni.
  - split; [exact Hlive |]. exists l1, l2. auto.
  - change (run L R API_KEY (event :: rest) s)
      with (run L R API_KEY rest (step L R API_KEY event s)).
    change (run L R API_KEY (event :: rest) s')
      with (run L R API_KEY rest (step L R API_KEY event s')).
    destruct (step_beside API_KEY websocket event s s' l1 l2 He Hdom Hlive Ha Ha' Hni)
      as (Hdom1 & Hlive1 & r1 & r2 & Hr & Hr' & Hni1).
    exact (IH _ _ r1 r2 Hdom1 Hlive1 Hr Hr' Hni1).
Qed.

(** X22: a connection leaves the list of connections as it would be
    without it.  The connection of [websocket] is opened, events are
    served, among them its frames and anything of other connections and
    requests, and the client disconnects: the list of connections is then
    what the same events would have left had the connection never been
    opened.  When the connection ends on a binary frame instead, it stays
    in the list. *)
Theorem connection_unregistered_at_end API_KEY websocket events (s : @System Env)
  (Hnew : websocket ∉ active_connections (world s))
  (Hevents : Forall (fun event => opens_or_closes websocket event = false) events) :
  active_connections
    (world (run L R API_KEY
              (Opened websocket :: events ++ [Closed websocket ClientDisconnect]) s))
  = active_connections
      (world (run L R API_KEY events
                {| world := world s; coroutines := delete websocket (coroutines s) |}))
  /\ websocket ∈ active_connections
                   (world (run L R API_KEY
                             (Opened websocket :: events ++ [Closed websocket BinaryFrame])
                             s)).
Proof.
  set (s0 := {| world := world s; coroutines := delete websocket (coroutines s) |}).
  set (s1 := step L R API_KEY (Opened websocket) s).
  assert (Hrun : forall closing,
             run L R API_KEY (Opened websocket :: events ++ [Closed websocket closing]) s
             = step L R API_KEY (Closed websocket closing) (run L R API_KEY events s1)).
  { intros closing. unfold run. cbn [fold_left]. rewrite fold_left_app. reflexivity. }
  destruct (run_beside API_KEY websocket events Hevents s0 s1
              (active_connections (world s)) [])
    as (Hlive & r1 & r2 & Hr & Hr' & Hni).
  - intros c Hc. unfold s1, s0. cbn [step coroutines].
    destruct (opened_returns websocket (world s)) as (w1 & sid & -> & _).
    cbn [coroutines]. rewrite lookup_insert_ne, lookup_delete_ne by congruence.
    reflexivity.
  - unfold s1. cbn [step].
    destruct (opened_returns websocket (world s)) as (w1 & sid & -> & _).
    cbn [coroutines]. rewrite lookup_insert_eq. eauto.
  - cbn. symmetry. apply app_nil_r.
  - unfold s1. destruct (step_leaves API_KEY (Opened websocket) s) as (_ & ->).
    reflexivity.
  - exact Hnew.
  - rewrite !Hrun. split.
    + destruct (step_leaves API_KEY (Closed websocket ClientDisconnect)
                  (run L R API_KEY events s1)) as (_ & ->).
      destruct Hlive as [sid ->]. rewrite Hr', Hr.
      assert (E : list_remove websocket (r1 ++ websocket :: r2) = Some (r1 ++ r2)).
      { apply list_remove_Some. exists r1, r2. auto. }
      rewrite E. reflexivity.
    + destruct (step_leaves API_KEY (Closed websocket BinaryFrame)
                  (run L R API_KEY events s1)) as (_ & ->).
      rewrite Hr'. apply elem_of_app. right. apply list_elem_of_here.
Qed.

(** X23: a frame that is JSON but not a valid message is answered
    without the agent: the history and what was printed stay as they are,
    the outside world is only asked for the time, the error response goes
    out under the session id of the connection, and the turn is the same
    whatever the model and the provider are. *)
Theorem invalid_message_not_run websocket session_id data (w : World Env) v e
  (Hjson : json_loads L data = inl v)
  (Hinvalid : new_ChatMessage L v = Raised e) :
  let now := (datetime_now_isoformat R (env w)).2 in
  let w' := (serve_frame L R websocket session_id data w).1 in
  serve_frame L R websocket session_id data w = (w', Returned tt)
  /\ sent w' = sent w ++ [(websocket, error_response session_id now e)]
  /\ conversation_history w' = conversation_history w
  /\ stdout w' = stdout w
  /\ env w' = (datetime_now_isoformat R (env w)).1
  /\ (forall R' : Remote Env,
         datetime_now_isoformat R' = datetime_now_isoformat R ->
         serve_frame L R' websocket session_id data w
         = serve_frame L R websocket session_id data w).
Proof.
  rewrite (serve_frame_invalid L R websocket session_id data w v e Hjson Hinvalid).
  cbn. unfold answered.
  split; [reflexivity |].
  repeat (split; [destruct (datetime_now_isoformat R (env w)); reflexivity |]).
  intros R' HR'.
  rewrite (serve_frame_invalid L R' _ _ _ _ _ _ Hjson Hinvalid).
  unfold answered. rewrite HR'. reflexivity.
Qed.

End Connections.

(** ** The further properties in the demo world *)

(** Settles that a given element is not in a given list. *)
Ltac not_among :=
  let H := fresh in
  intros H; apply list_elem_of_In in H; cbn in H; intuition discriminate.

(** Connection 7 is registered twice, after 3 and after 5: [disconnect]
    takes the first registration. *)
Lemma disconnect_removes_first_witness :
  let w := relocate (Demo.start [] (Demo.says "ok")) [] [3; 7; 5; 7]%nat [] in
  7%nat ∈ active_connections w
  /\ exists l1 l2,
      active_connections w = l1 ++ 7%nat :: l2
      /\ (7%nat ∉ l1)
      /\ disconnect Demo.library 7%nat w
         = (relocate w (conversation_history w) (l1 ++ l2) (sent w), Returned tt).
Proof.
  intros w.
  assert (Hin : 7%nat ∈ active_connections w)
    by (apply list_elem_of_further, list_elem_of_here).
  split; [exact Hin |].
  exact (disconnect_removes_first Demo.library 7%nat w Hin).
Defined.

(** Connection 7 is not registered: [disconnect] raises, and so does the
    second [disconnect] after a [connect]. *)
Lemma disconnect_not_idempotent_witness :
  let w := relocate (Demo.start [] (Demo.says "ok")) ["hello"] [3; 5]%nat [] in
  (7%nat ∉ active_connections w)
  /\ disconnect Demo.library 7%nat w
     = (w, Raised (Exn ValueError "list.remove(x): x not in list"))
  /\ (let* _ := connect 7%nat in
      let* _ := disconnect Demo.library 7%nat in
      disconnect Demo.library 7%nat) w
     = (w, Raised (Exn ValueError "list.remove(x): x not in list")).
Proof.
  intros w.
  assert (Hni : 7%nat ∉ active_connections w) by not_among.
  destruct (disconnect_not_idempotent Demo.library Demo.remote 7%nat w)
    as (_ & Habsent & Htwice & _).
  split; [exact Hni |].
  split; [exact (proj1 Habsent Hni) | exact (Htwice Hni)].
Defined.

(** Connections 3 and 5 are registered when 7 connects and disconnects. *)
Lemma connect_disconnect_round_trip_witness :
  let w := relocate (Demo.start [] (Demo.says "ok")) ["hello"] [3; 5]%nat [] in
  (7%nat ∉ active_connections w)
  /\ (let* _ := connect 7%nat in disconnect Demo.library 7%nat) w = (w, Returned tt).
Proof.
  intros w.
  assert (Hnew : 7%nat ∉ active_connections w) by not_among.
  split; [exact Hnew |].
  exact (connect_disconnect_round_trip Demo.library 7%nat w Hnew).
Defined.

(** No key is configured and the request has an empty header. *)
Lemma clear_chat_authorised_witness :
  let w := Demo.start [] (Demo.says "ok") in
  authorised None (Some EmptyString)
  /\ read_root None (Some EmptyString) = Ok "API is working"
  /\ conversation_history (clear_chat None (Some EmptyString) w).1 = [].
Proof.
  intros w.
  assert (Hauthorised : authorised None (Some EmptyString)) by (right; reflexivity).
  split; [exact Hauthorised |].
  destruct (clear_chat_authorised None (Some EmptyString) w Hauthorised) as (H1 & H2).
  split; [exact H1 |]. rewrite H2. reflexivity.
Defined.

(** The configured key is the empty text, and so is the header. *)
Lemma routes_refuse_other_keys_witness :
  let w := Demo.start [] (Demo.says "ok") in
  ~ authorised (Some EmptyString) (Some EmptyString)
  /\ read_root (Some EmptyString) (Some EmptyString)
     = HTTPException 403 "Invalid API Key"
  /\ clear_chat (Some EmptyString) (Some EmptyString) w
     = (w, HTTPException 403 "Invalid API Key")
  /\ conversation_history (clear_chat (Some EmptyString) (Some EmptyString) w).1
     = ["hello"; "hi"].
Proof.
  intros w.
  assert (Hrefused : ~ authorised (Some EmptyString) (Some EmptyString))
    by (intros [H _]; apply H; reflexivity).
  split; [exact Hrefused |].
  destruct (routes_refuse_other_keys (Some EmptyString) (Some EmptyString) w Hrefused)
    as (H1 & H2).
  split; [exact H1 |]. split; [exact H2 |]. rewrite H2. reflexivity.
Defined.

(** The front end sends the prompt "hi" of the session "s1". *)
Lemma message_payload_carries_prompt_witness :
  let data := Demo.object [("session_id", "s1"); ("message", "hi");
                           ("timestamp", "2024-01-01T10:00:00");
                           ("user_id", "streamlit_user"); ("message_type", "chat")] in
  let w := Demo.start [] (Demo.says "Hello!") in
  json_loads Demo.library data
  = inl (JObject (message_payload "s1" "hi" "2024-01-01T10:00:00"))
  /\ str_strip Demo.library (str_lower Demo.library "hi") <> "/clear"
  /\ exists w1 reply,
      process_chat_message Demo.library Demo.remote "hi" w = (w1, Returned reply)
      /\ serve_frame Demo.library Demo.remote 7%nat "sid" data w
         = (answered Demo.remote w1 (conversation_history w) 7%nat
              (new_ChatResponse "s1" reply),
            Returned tt).
Proof.
  intros data w.
  assert (Hjson : json_loads Demo.library data
                  = inl (JObject (message_payload "s1" "hi" "2024-01-01T10:00:00")))
    by (vm_compute; reflexivity).
  assert (Hchat : str_strip Demo.library (str_lower Demo.library "hi") <> "/clear")
    by (intros H; vm_compute in H; discriminate H).
  split; [exact Hjson |]. split; [exact Hchat |].
  exact (message_payload_carries_prompt Demo.library Demo.remote 7%nat "sid" data
           "s1" "hi" "2024-01-01T10:00:00" w Hjson Hchat).
Defined.

(** A message with a member "extra" more. *)
Lemma validate_ignores_other_members_witness :
  let fields : gmap string json :=
    {[ "session_id" := JString "s1"; "message" := JString "hi" ]} in
  ("extra" ∉ ["session_id"; "message"; "user_id"; "timestamp"; "message_type"])
  /\ validate (<["extra" := JNull]> fields) = validate fields.
Proof.
  intros fields.
  assert (Hother : "extra" ∉ ["session_id"; "message"; "user_id"; "timestamp";
                               "message_type"]) by not_among.
  split; [exact Hother |].
  exact (validate_ignores_other_members fields "extra" JNull Hother).
Defined.

(** A message of two members: the other three fields are at their
    defaults. *)
Lemma validate_reads_fields_witness :
  let fields : gmap string json :=
    {[ "session_id" := JString "s1"; "message" := JString "hi" ]} in
  exists m,
    validate fields = Some m
    /\ fields !! "session_id" = Some (JString (ChatMessage.session_id m))
    /\ fields !! "message" = Some (JString (ChatMessage.message m))
    /\ ChatMessage.user_id m = "user"
    /\ ChatMessage.message_type m = "chat"
    /\ ChatMessage.timestamp m = None.
Proof.
  intros fields.
  eassert (Hvalid : validate fields = Some _) by (vm_compute; reflexivity).
  eexists. split; [exact Hvalid |].
  destruct (validate_reads_fields fields _ Hvalid) as (H1 & H2 & _).
  split; [exact H1 |]. split; [exact H2 |]. split; [reflexivity |].
  split; reflexivity.
Defined.

(** The model answers "hi" with the text "Hello!". *)
Lemma plain_reply_verbatim_witness :
  let w := Demo.start [] (Demo.says "Hello!") in
  exists response w1,
    generate_content Demo.remote "hi" (env w) = (env w, Returned response)
    /\ no_function_call response
    /\ text response = Returned "Hello!"
    /\ run_quotation_agent Demo.library Demo.remote "hi" w = (w1, Returned "Hello!")
    /\ env w1 = env w.
Proof.
  intros w.
  eassert (Hmodel : generate_content Demo.remote "hi" (env w) = (env w, Returned _))
    by reflexivity.
  match type of Hmodel with
  | _ = (_, Returned ?response) =>
      assert (Hplain : no_function_call response) by (repeat constructor);
      assert (Htext : text response = Returned "Hello!") by reflexivity;
      destruct (plain_reply_verbatim Demo.library Demo.remote "hi" w _ response _
                  Hmodel Hplain Htext) as (w1 & Hrun & Henv);
      exists response, w1
  end.
  split; [exact Hmodel |]. split; [exact Hplain |]. split; [exact Htext |].
  split; [exact Hrun | exact Henv].
Defined.

(** The model calls [create_invoice] without an amount. *)
Lemma bad_arguments_never_reach_provider_witness :
  let w := Demo.start ["cus_1"]
             (Demo.calls "create_invoice" {[ "customer_id" := VStr "cus_1" ]}) in
  signature "create_invoice"
  = Some (["customer_id"; "amount"; "currency"; "description"], ["customer_id"; "amount"])
  /\ ({[ "customer_id" := VStr "cus_1" ]} : gmap string pyval) !! "amount" = None
  /\ exists w1 f,
      run_quotation_agent Demo.library Demo.remote "an invoice for cus_1" w
      = (w1, Returned ("I'm sorry, I encountered an error while processing your request: "
                       +:+ describe Demo.library f))
      /\ fault_class f = TypeError
      /\ env w1 = env w.
Proof.
  intros w.
  split; [reflexivity |]. split; [reflexivity |].
  refine (bad_arguments_never_reach_provider Demo.library Demo.remote
            "an invoice for cus_1" w (env w) _ _ [] _ []
            {| name := "create_invoice"; args := {[ "customer_id" := VStr "cus_1" ]} |}
            _ _ eq_refl eq_refl eq_refl eq_refl eq_refl _).
  right. exists "amount". split; [| reflexivity].
  apply list_elem_of_further, list_elem_of_here.
Defined.

(** A call of [list_invoices] followed by a call of [create_customer], or
    by nothing. *)
Lemma first_registered_call_wins_witness :
  let w := Demo.start [] (Demo.says "ok") in
  let fc := {| name := "list_invoices"; args := ∅ |} in
  let part := {| function_call := Some fc |} in
  let later :=
    {| function_call :=
         Some {| name := "create_customer"; args := {[ "email" := VStr "a@b.c" ]} |} |} in
  signature (name fc) <> None
  /\ for_parts Demo.library Demo.remote [part; later] w
     = for_parts Demo.library Demo.remote [part] w.
Proof.
  intros w fc part later.
  assert (Hregistered : signature (name fc) <> None) by discriminate.
  split; [exact Hregistered |].
  exact (first_registered_call_wins Demo.library Demo.remote part [later] [] fc w
           eq_refl Hregistered).
Defined.

(** A customer for "alice@example.com" without a name. *)
Lemma create_customer_default_name_witness :
  let w := Demo.start [] (Demo.says "ok") in
  truthy (VStr EmptyString) = false
  /\ ~ In "@"%char (list_ascii_of_string "alice")
  /\ exists env1,
      stripe Demo.remote
        (Customer_create (VStr "alice@example.com") (VStr "alice")
           (VStr "Customer created via AI agent")) (env w)
      = (env1, Returned {| Customer.id := "cus_1" |})
      /\ create_customer Demo.library Demo.remote (VStr "alice@example.com")
           (VStr EmptyString) (VStr EmptyString) w
         = (set_env w env1,
            Returned "Customer cus_1 created successfully for alice@example.com").
Proof.
  intros w.
  assert (Hlocal : ~ In "@"%char (list_ascii_of_string "alice"))
    by (cbn; intuition discriminate).
  split; [reflexivity |]. split; [exact Hlocal |].
  eassert (Hcreate : stripe Demo.remote
                       (Customer_create (VStr ("alice" +:+ "@" +:+ "example.com"))
                          (VStr "alice")
                          (py_or (VStr EmptyString) (VStr "Customer created via AI agent")))
                       (env w)
                     = (_, Returned {| Customer.id := "cus_1" |})) by reflexivity.
  eexists. split; [exact Hcreate |].
  exact (create_customer_default_name Demo.library Demo.remote "alice" "example.com"
           (VStr EmptyString) (VStr EmptyString) w _ _ eq_refl Hlocal Hcreate).
Defined.

(** The provider holds one invoice and the customer id is the empty text. *)
Lemma list_invoices_without_customer_witness :
  let stored := {| Demo.stored_id := "in_1"; Demo.stored_customer := "cus_1";
                   Demo.stored_items := [500] |} in
  let e := {| Demo.customers := ["cus_1"]; Demo.invoices := [stored]; Demo.issued := 2;
              Demo.ticks := 0; Demo.model := Demo.says "ok" |} in
  let w := set_env (Demo.start [] (Demo.says "ok")) e in
  truthy (VStr EmptyString) = false
  /\ stripe Demo.remote (Invoice_list None) (env w)
     = (e, Returned [Demo.invoice_of stored])
  /\ list_invoices Demo.remote (VStr EmptyString) w = (w, Returned "Found 1 invoices.").
Proof.
  intros stored e w.
  assert (Hlist : stripe Demo.remote (Invoice_list None) (env w)
                  = (e, Returned [Demo.invoice_of stored])) by reflexivity.
  split; [reflexivity |]. split; [exact Hlist |].
  exact (list_invoices_without_customer Demo.remote (VStr EmptyString) w e
           [Demo.invoice_of stored] eq_refl Hlist).
Defined.

(** The amount 12345. *)
Lemma amount_of_int_unchanged_witness :
  Z.abs 12345 < 2 ^ 53
  /\ exists x, py_float Demo.library (VInt 12345) = Returned x
               /\ py_int Demo.library x = Returned 12345.
Proof.
  assert (Hn : Z.abs 12345 < 2 ^ 53) by reflexivity.
  split; [exact Hn |].
  exact (amount_of_int_unchanged Demo.library 12345 Hn).
Defined.

(** The amount "abc". *)
Lemma create_invoice_bad_amount_witness :
  let w := Demo.start ["cus_1"] (Demo.says "ok") in
  exists e,
    py_float Demo.library (VStr "abc") = Raised e
    /\ create_invoice Demo.library Demo.remote (VStr "cus_1") (VStr "abc") (VStr "inr")
         (VStr EmptyString) w
       = (w, Returned ("Error creating invoice: " +:+ str_exn e))
    /\ str_exn e = "could not convert string to float: 'abc'".
Proof.
  intros w.
  eassert (Hamount : py_float Demo.library (VStr "abc") = Raised _)
    by (vm_compute; reflexivity).
  eexists. split; [exact Hamount |].
  split; [| reflexivity].
  exact (create_invoice_bad_amount Demo.library Demo.remote (VStr "cus_1") (VStr "abc")
           (VStr "inr") (VStr EmptyString) w _ (or_introl Hamount)).
Defined.

(** An invoice for "cus_9", which the provider does not know, in the
    currency 3: the demo customer "cus_1" is made, then the handler fails. *)
Lemma demo_customer_outlives_failure_witness :
  let w := Demo.start [] (Demo.says "ok") in
  exists env2,
    create_invoice Demo.library Demo.remote (VStr "cus_9") (VInt 5000) (VInt 3)
      (VStr EmptyString) w
    = (set_env w env2,
       Returned ("Error creating invoice: "
                 +:+ describe Demo.library (NoAttribute (VInt 3) "lower")))
    /\ Demo.customers env2 = ["cus_1"]
    /\ Demo.invoices env2 = [].
Proof.
  intros w.
  eassert (Hfloat : py_float Demo.library (VInt 5000) = Returned _)
    by (vm_compute; reflexivity).
  match type of Hfloat with
  | _ = Returned ?x =>
      eassert (Hint : py_int Demo.library x = Returned _) by (vm_compute; reflexivity)
  end.
  assert (Hretrieve : stripe Demo.remote (Customer_retrieve (VStr "cus_9")) (env w)
                      = (env w, Raised (Demo.no_such "customer" "cus_9")))
    by reflexivity.
  eassert (Hdemo : stripe Demo.remote
                     (Customer_create
                        (VStr (py_str Demo.library (VStr "cus_9") +:+ "@demo.com"))
                        (VStr ("Demo Customer " +:+ py_str Demo.library (VStr "cus_9")))
                        (VStr "Demo customer created by AI agent")) (env w)
                   = (_, Returned _)) by reflexivity.
  assert (Hcurrency : forall s, VInt 3 <> VStr s) by discriminate.
  eexists. split.
  - exact (demo_customer_outlives_failure Demo.library Demo.remote (VStr "cus_9")
             (VInt 5000) (VInt 3) (VStr EmptyString) w _ _ _ _ _ _
             Hfloat Hint Hretrieve eq_refl Hdemo Hcurrency).
  - split; reflexivity.
Defined.

(** Connections 3 and 5 are open when 7 connects; 7 sends a frame, 9
    connects and 3 disconnects before 7 does. *)
Lemma connection_unregistered_at_end_witness :
  let s := {| world := relocate (Demo.start [] (Demo.says "ok")) ["hello"] [3; 5]%nat [];
              coroutines := {[ 3%nat := "a"; 5%nat := "b" ]} |} in
  let events := [Received 7%nat (Demo.frame "s1" "hi"); Opened 9%nat;
                 Closed 3%nat ClientDisconnect] in
  (7%nat ∉ active_connections (world s))
  /\ Forall (fun event => opens_or_closes 7%nat event = false) events
  /\ active_connections
       (world (run Demo.library Demo.remote None
                 (Opened 7%nat :: events ++ [Closed 7%nat ClientDisconnect]) s))
     = [5; 9]%nat
  /\ 7%nat ∈ active_connections
               (world (run Demo.library Demo.remote None
                         (Opened 7%nat :: events ++ [Closed 7%nat BinaryFrame]) s)).
Proof.
  intros s events.
  assert (Hnew : 7%nat ∉ active_connections (world s)) by not_among.
  assert (Hevents : Forall (fun event => opens_or_closes 7%nat event = false) events)
    by (repeat constructor).
  split; [exact Hnew |]. split; [exact Hevents |].
  destruct (connection_unregistered_at_end Demo.library Demo.remote None 7%nat events s
              Hnew Hevents) as (H1 & H2).
  split; [| exact H2]. rewrite H1. vm_compute. reflexivity.
Defined.

(** An object without a message. *)
Lemma invalid_message_not_run_witness :
  let data := Demo.object [("session_id", "s1")] in
  let w := Demo.start [] (Demo.says "ok") in
  let w' := (serve_frame Demo.library Demo.remote 7%nat "sid" data w).1 in
  exists v e,
    json_loads Demo.library data = inl v
    /\ new_ChatMessage Demo.library v = Raised e
    /\ sent w' = [(7%nat, error_response "sid" "2024-01-01T00:00:00" e)]
    /\ conversation_history w' = ["hello"; "hi"]
    /\ stdout w' = [].
Proof.
  intros data w w'.
  eassert (Hj : json_loads Demo.library data = inl _) by (vm_compute; reflexivity).
  match type of Hj with
  | _ = inl ?v =>
      eassert (Hm : new_ChatMessage Demo.library v = Raised _)
        by (vm_compute; reflexivity)
  end.
  eexists _, _. split; [exact Hj |]. split; [exact Hm |].
  pose proof (invalid_message_not_run Demo.library Demo.remote 7%nat "sid" data w _ _
                Hj Hm) as (_ & Hs & Hh & Ho & _).
  split; [exact Hs |]. split; [exact Hh | exact Ho].
Defined.
